(** * Riva vault SDK: exchange arithmetic, validators and call builders

    A shallow embedding of the transaction-assembly and exchange-calculation
    core of the SDK (the math utilities, [src/utils/validators.ts],
    [src/utils/transactions.ts] and the build-only methods of
    [src/client/VaultClient.ts]), with the properties of its specification
    stated and proved over it.

    Conventions of the embedding:
    - a JavaScript [bigint] is a [Z]; a [number] that the code uses as an
      integer (rate decimals, lengths) is a [Z] or [N];
    - a JavaScript string is a [string]: a sequence of code units, here
      restricted to the range U+0000..U+00FF;
    - a [throw] is the [Throw] outcome; code that mutates the caller's
      [Transaction] is a state-passing function that hands back the
      transaction as it stands when the function returns or throws. *)

From Stdlib Require Import ZArith NArith Zpow_facts String Ascii List Bool Lia.
From Stdlib Require Import Decimal DecimalString DecimalPos DecimalN.
Import ListNotations.

#[local] Open Scope list_scope.
#[local] Open Scope string_scope.
#[local] Open Scope Z_scope.

(* ===================================================================== *)
(** ** JavaScript strings *)
(* ===================================================================== *)

Module JsString.

(** [s.startsWith(p)] *)
Definition startsWith (s p : string) : bool := String.prefix p s.

(** [s.slice(n)] for [n >= 0] *)
Fixpoint slice (n : nat) (s : string) : string :=
  match n, s with
  | O, _ => s
  | S n', String _ s' => slice n' s'
  | S _, EmptyString => EmptyString
  end.

Fixpoint repeat (c : ascii) (n : nat) : string :=
  match n with
  | O => EmptyString
  | S n' => String c (repeat c n')
  end.

(** [s.padStart(n, c)] with a one-character filler *)
Definition padStart (n : nat) (c : ascii) (s : string) : string :=
  repeat c (n - String.length s) ++ s.

Fixpoint all (p : ascii -> bool) (s : string) : bool :=
  match s with
  | EmptyString => true
  | String c s' => p c && all p s'
  end.

Definition isEmpty (s : string) : bool :=
  match s with EmptyString => true | _ => false end.

Definition code (c : ascii) : N := N_of_ascii c.

Definition between (lo hi : N) (c : ascii) : bool :=
  ((lo <=? code c) && (code c <=? hi))%N.

(** character classes of the regular expressions in the source *)
Definition isDigit (c : ascii) : bool := between 48 57 c.            (* 0-9 *)
Definition isLower (c : ascii) : bool := between 97 122 c.           (* a-z *)
Definition isUpper (c : ascii) : bool := between 65 90 c.            (* A-Z *)
Definition isHexDigit (c : ascii) : bool :=                          (* 0-9a-fA-F *)
  isDigit c || between 97 102 c || between 65 70 c.
Definition isIdentStart (c : ascii) : bool :=                        (* a-zA-Z_ *)
  isLower c || isUpper c || Ascii.eqb c "_".
Definition isIdentPart (c : ascii) : bool :=                         (* a-zA-Z0-9_ *)
  isIdentStart c || isDigit c.

(** [/^[0-9a-fA-F]+$/.test(s)] *)
Definition test_hex_plus (s : string) : bool :=
  negb (isEmpty s) && all isHexDigit s.

(** [/^0x[0-9a-fA-F]{64}$/.test(s)] *)
Definition test_0x_hex64 (s : string) : bool :=
  match s with
  | String "0" (String "x" h) => (String.length h =? 64)%nat && all isHexDigit h
  | _ => false
  end.

(** [/^[a-zA-Z_][a-zA-Z0-9_]*$/.test(s)] *)
Definition test_identifier (s : string) : bool :=
  match s with
  | String c s' => isIdentStart c && all isIdentPart s'
  | EmptyString => false
  end.

(** [s.split('::')]: the pieces between successive leftmost occurrences of
    the separator; [cur] holds the current piece in reverse. *)
Fixpoint split_colons_from (cur : list ascii) (s : string) : list string :=
  match s with
  | EmptyString => [string_of_list_ascii (List.rev cur)]
  | String c s' =>
      match s' with
      | String c' s'' =>
          if Ascii.eqb c ":" && Ascii.eqb c' ":"
          then string_of_list_ascii (List.rev cur) :: split_colons_from [] s''
          else split_colons_from (c :: cur) s'
      | EmptyString => split_colons_from (c :: cur) s'
      end
  end.

Definition split_colons (s : string) : list string := split_colons_from [] s.

(** [new TextEncoder().encode(s)] on code units below U+0100 *)
Definition utf8_of_unit (c : ascii) : list Z :=
  let n := Z.of_N (code c) in
  if n <? 128 then [n] else [192 + n / 64; 128 + n mod 64].

Fixpoint utf8 (s : string) : list Z :=
  match s with
  | EmptyString => []
  | String c s' => utf8_of_unit c ++ utf8 s'
  end.

End JsString.

(* ===================================================================== *)
(** ** BigInt: printing and parsing *)
(* ===================================================================== *)

Module JsBigInt.

(** digits of a positive integer, most significant first *)
Definition digits (p : positive) : string :=
  NilEmpty.string_of_uint (Pos.to_uint p).

(** [z.toString()] of a bigint *)
Definition toString (z : Z) : string :=
  match z with
  | Z0 => "0"
  | Zpos p => digits p
  | Zneg p => String "-" (digits p)
  end.

(** StrWhiteSpaceChar of ECMAScript, among the code units below U+0100:
    TAB, LF, VT, FF, CR, SP and NBSP *)
Definition isStrWhiteSpaceChar (c : ascii) : bool :=
  match JsString.code c with
  | 9 | 10 | 11 | 12 | 13 | 32 | 160 => true
  | _ => false
  end%N.

Fixpoint trimStart (s : string) : string :=
  match s with
  | EmptyString => EmptyString
  | String c s' => if isStrWhiteSpaceChar c then trimStart s' else s
  end.

Fixpoint trimEnd (s : string) : string :=
  match s with
  | EmptyString => EmptyString
  | String c s' =>
      match trimEnd s' with
      | EmptyString => if isStrWhiteSpaceChar c then EmptyString else String c EmptyString
      | r => String c r
      end
  end.

(** DecimalDigits: one or more decimal digits *)
Definition parseDecimal (s : string) : option Z :=
  match s with
  | EmptyString => None
  | _ => option_map (fun u => Z.of_N (N.of_uint u)) (NilEmpty.uint_of_string s)
  end.

Definition digitValue (c : ascii) : option Z :=
  let n := Z.of_N (JsString.code c) in
  if JsString.isDigit c then Some (n - 48)
  else if JsString.isLower c then Some (n - 97 + 10)
  else if JsString.isUpper c then Some (n - 65 + 10)
  else None.

Fixpoint parseDigits (radix acc : Z) (s : string) : option Z :=
  match s with
  | EmptyString => Some acc
  | String c s' =>
      match digitValue c with
      | Some v => if v <? radix then parseDigits radix (acc * radix + v) s' else None
      | None => None
      end
  end.

(** the digits of a NonDecimalIntegerLiteral: one or more digits of the radix *)
Definition parseRadix (radix : Z) (s : string) : option Z :=
  match s with
  | EmptyString => None
  | _ => parseDigits radix 0 s
  end.

(** StringToBigInt: optional white space around either nothing (zero), a
    signed decimal numeral, or an unsigned 0x/0o/0b numeral. *)
Definition StringToBigInt (str : string) : option Z :=
  match trimEnd (trimStart str) with
  | EmptyString => Some 0
  | String "+" ds => parseDecimal ds
  | String "-" ds => option_map Z.opp (parseDecimal ds)
  | String "0" (String c ds) as t =>
      if Ascii.eqb c "x" || Ascii.eqb c "X" then parseRadix 16 ds
      else if Ascii.eqb c "o" || Ascii.eqb c "O" then parseRadix 8 ds
      else if Ascii.eqb c "b" || Ascii.eqb c "B" then parseRadix 2 ds
      else parseDecimal t
  | t => parseDecimal t
  end.

End JsBigInt.

(* ===================================================================== *)
(** ** Errors and outcomes ([src/types], error codes) *)
(* ===================================================================== *)

Inductive VaultErrorCode : Type :=
| INVALID_PARAMETERS
| VALIDATION_ERROR
| INSUFFICIENT_BALANCE
| INSUFFICIENT_RESERVES
| TRANSACTION_FAILED
| NETWORK_ERROR
| TIMEOUT
| RATE_LIMIT_EXCEEDED
| UNAUTHORIZED
| ARITHMETIC_OVERFLOW
| DIVISION_BY_ZERO
| UNKNOWN_ERROR.

(** What a [throw] carries.  A [VaultError] is identified by its code (the
    programmatic contract; its message is not modelled); a plain [Error]
    carries its message; [SyntaxError] and [TypeError] are the errors the
    JavaScript runtime and the BCS encoders raise. *)
Inductive JsError : Type :=
| VaultError (code : VaultErrorCode)
| Error (message : string)
| SyntaxError
| TypeError.

Inductive Outcome (A : Type) : Type :=
| Return (a : A)
| Throw (e : JsError).

Arguments Return {A} a.
Arguments Throw {A} e.

Definition bindO {A B} (o : Outcome A) (k : A -> Outcome B) : Outcome B :=
  match o with
  | Return a => k a
  | Throw e => Throw e
  end.

Declare Scope outcome_scope.
Delimit Scope outcome_scope with outcome.
Notation "x <- c ;; k" := (bindO c (fun x => k))
  (at level 61, c at next level, right associativity) : outcome_scope.
Notation "c ;; k" := (bindO c (fun _ => k))
  (at level 61, right associativity) : outcome_scope.

(** [BigInt(s)]: a string that is not a StringIntegerLiteral is a SyntaxError *)
Definition BigInt (s : string) : Outcome Z :=
  match JsBigInt.StringToBigInt s with
  | Some z => Return z
  | None => Throw SyntaxError
  end.

(** [MAX_U64] of [src/constants] *)
Definition MAX_U64 : Z := 18446744073709551615.

(* ===================================================================== *)
(** ** bignumber.js, as configured by the math utilities *)
(* ===================================================================== *)

Module BigNumber.

(** [BigNumber.config({ DECIMAL_PLACES: 18, ROUNDING_MODE: ROUND_DOWN,
                        EXPONENTIAL_AT: [-18, 18] })] *)
Definition DECIMAL_PLACES : Z := 18.
Definition TO_EXP_NEG : Z := -18.
Definition TO_EXP_POS : Z := 18.

(** A finite BigNumber: the decimal [coeff / 10^dp]. *)
Record t : Type := mk { coeff : Z; dp : Z }.

(** [new BigNumber(z.toString())] for a bigint [z] *)
Definition of_Z (z : Z) : t := mk z 0.

Definition ONE : t := of_Z 1.

Definition compare (x y : t) : comparison :=
  (coeff x * 10 ^ dp y ?= coeff y * 10 ^ dp x).

Definition lt (x y : t) : bool :=
  match compare x y with Lt => true | _ => false end.
Definition lte (x y : t) : bool :=
  match compare x y with Gt => false | _ => true end.
Definition gt (x y : t) : bool :=
  match compare x y with Gt => true | _ => false end.

(** multiplication is exact *)
Definition multipliedBy (x y : t) : t :=
  mk (coeff x * coeff y) (dp x + dp y).

(** [x.pow(n)] for an integer [n >= 0]: exact (POW_PRECISION is 0) *)
Definition pow (x : t) (n : N) : t :=
  mk (coeff x ^ Z.of_N n) (dp x * Z.of_N n).

(** [x.div(y)]: the quotient cut to DECIMAL_PLACES decimals with ROUND_DOWN,
    that is towards zero.  Both call sites divide by a value that is
    positive, so the non-finite results of a zero divisor do not arise. *)
Definition div (x y : t) : t :=
  mk (Z.quot (coeff x * 10 ^ dp y * 10 ^ DECIMAL_PLACES) (coeff y * 10 ^ dp x))
     DECIMAL_PLACES.

(** [x.integerValue()]: with no argument the rounding mode is ROUNDING_MODE,
    ROUND_DOWN; the integer-valued result is given as its integer. *)
Definition integerValue (x : t) : Z := Z.quot (coeff x) (10 ^ dp x).

(** [coeffToString]: the digits without their trailing zeros, the first
    digit always kept *)
Fixpoint stripTrailingZeros (s : string) : string :=
  match s with
  | EmptyString => EmptyString
  | String c s' =>
      match stripTrailingZeros s' with
      | EmptyString => if Ascii.eqb c "0" then EmptyString else String c EmptyString
      | r => String c r
      end
  end.

Definition coeffToString (ds : string) : string :=
  match ds with
  | EmptyString => EmptyString
  | String c s' => String c (stripTrailingZeros s')
  end.

(** [toExponential(str, e)] for [e >= 0] *)
Definition toExponential (str : string) (e : Z) : string :=
  match str with
  | String c (String c' r) =>
      String c (String "." (String c' r)) ++ "e+" ++ JsBigInt.toString e
  | _ => str ++ "e+" ++ JsBigInt.toString e
  end.

(** the base-10 exponent [e] of a positive integer: [10^e <= z < 10^(e+1)] *)
Fixpoint exponent10_from (fuel : nat) (z : Z) : Z :=
  match fuel with
  | O => 0
  | S fuel' => if z <? 10 then 0 else 1 + exponent10_from fuel' (z / 10)
  end.

Definition exponent10 (p : positive) : Z :=
  exponent10_from (Pos.size_nat p) (Zpos p).

(** the numeral of a positive integer: exponential notation from
    [e >= TO_EXP_POS] on, the plain decimal numeral below *)
Definition numeral (p : positive) : string :=
  if TO_EXP_POS <=? exponent10 p
  then toExponential (coeffToString (JsBigInt.digits p)) (exponent10 p)
  else JsBigInt.digits p.

(** [x.toString()] of an integer-valued BigNumber [z] *)
Definition toString_integer (z : Z) : string :=
  match z with
  | Z0 => "0"
  | Zpos p => numeral p
  | Zneg p => String "-" (numeral p)
  end.

End BigNumber.

(* ===================================================================== *)
(** ** Exchange calculations (math utilities) *)
(* ===================================================================== *)

#[local] Open Scope outcome_scope.

(** [calculateOutputAmount(rate, inputValue, rateDecimals)]; the arguments
    are bigints (or their decimal numerals) and [rateDecimals] a
    non-negative integer. *)
Definition calculateOutputAmount (rate inputValue : Z) (rateDecimals : N) : Outcome Z :=
  let rateBN := BigNumber.of_Z rate in
  let inputBN := BigNumber.of_Z inputValue in
  let divisor := BigNumber.pow (BigNumber.of_Z 10) rateDecimals in
  if BigNumber.lte rateBN (BigNumber.of_Z 0) then Throw (VaultError DIVISION_BY_ZERO)
  else if BigNumber.lt inputBN (BigNumber.of_Z 0) then Throw (VaultError INVALID_PARAMETERS)
  else
    let maxInput := BigNumber.div (BigNumber.of_Z MAX_U64) rateBN in
    if BigNumber.gt inputBN maxInput then Throw (VaultError ARITHMETIC_OVERFLOW)
    else
      let result := BigNumber.div (BigNumber.multipliedBy rateBN inputBN) divisor in
      if BigNumber.gt result (BigNumber.of_Z MAX_U64) then Throw (VaultError ARITHMETIC_OVERFLOW)
      else BigInt (BigNumber.toString_integer (BigNumber.integerValue result)).

(** [calculateInputAmount(rate, outputValue, rateDecimals)] *)
Definition calculateInputAmount (rate outputValue : Z) (rateDecimals : N) : Outcome Z :=
  let rateBN := BigNumber.of_Z rate in
  let outputBN := BigNumber.of_Z outputValue in
  let multiplier := BigNumber.pow (BigNumber.of_Z 10) rateDecimals in
  if BigNumber.lte rateBN (BigNumber.of_Z 0) then Throw (VaultError DIVISION_BY_ZERO)
  else if BigNumber.lt outputBN (BigNumber.of_Z 0) then Throw (VaultError INVALID_PARAMETERS)
  else
    let maxOutput := BigNumber.div (BigNumber.of_Z MAX_U64) multiplier in
    if BigNumber.gt outputBN maxOutput then Throw (VaultError ARITHMETIC_OVERFLOW)
    else
      let result := BigNumber.div (BigNumber.multipliedBy outputBN multiplier) rateBN in
      if BigNumber.gt result (BigNumber.of_Z MAX_U64) then Throw (VaultError ARITHMETIC_OVERFLOW)
      else BigInt (BigNumber.toString_integer (BigNumber.integerValue result)).

(** the round trip of the testable properties:
    [calculateInputAmount(r, calculateOutputAmount(r, a, d), d)] *)
Definition roundTrip (r a : Z) (d : N) : Outcome Z :=
  o <- calculateOutputAmount r a d ;;
  calculateInputAmount r o d.


(* ===================================================================== *)
(** ** The host platform *)
(* ===================================================================== *)

(** What the code asks of its platform and of the chain, taken as given:
    whether [new URL(s)] parses, whether the Sui SDK's address encoder
    accepts a string, and the answer of the chain to the vault-type query
    behind [inferOutputTypeFromVault]. *)
Class Host : Type := {
  URL_parses : string -> bool;
  sui_address_encodes : string -> bool;
  inferOutputTypeFromVault : string -> Outcome string
}.

(** a value of type [string | bigint] *)
Inductive Numeric : Type :=
| NumString (s : string)
| NumBigInt (z : Z).

(** [v.toString()], also the rendering of [v] inside a template literal *)
Definition Numeric_toString (v : Numeric) : string :=
  match v with
  | NumString s => s
  | NumBigInt z => JsBigInt.toString z
  end.

(* ===================================================================== *)
(** ** Validators ([src/utils/validators.ts]) *)
(* ===================================================================== *)

Definition isValidSuiAddress (address : string) : bool :=
  if JsString.isEmpty address then false
  else if negb (JsString.startsWith address "0x") then false
  else
    let hex := JsString.slice 2 address in
    if negb (JsString.test_hex_plus hex) then false
    else if (String.length hex =? 0)%nat || (64 <? String.length hex)%nat then false
    else true.

Definition validateSuiAddress (address : string) : Outcome string :=
  if negb (isValidSuiAddress address)
  then Throw (Error ("Invalid Sui address: " ++ address))
  else
    let hex := JsString.slice 2 address in
    let padded := JsString.padStart 64 "0" hex in
    Return ("0x" ++ padded).

Definition isValidCoinType (coinType : string) : bool :=
  if JsString.isEmpty coinType then false
  else
    match JsString.split_colons coinType with
    | [address; module; struct] =>
        if negb (isValidSuiAddress address) then false
        else if negb (JsString.test_identifier module) then false
        else if negb (JsString.test_identifier struct) then false
        else true
    | _ => false
    end.

Definition validateCoinType (coinType : string) : Outcome string :=
  if negb (isValidCoinType coinType)
  then Throw (Error ("Invalid coin type format: " ++ coinType))
  else Return coinType.

(** the [try { ... } catch { return false }] of the predicates *)
Definition isValidAmount (amount : Numeric) : bool :=
  match BigInt (Numeric_toString amount) with
  | Return bigintAmount => 0 <=? bigintAmount
  | Throw _ => false
  end.

Definition validateAmount (amount : Numeric) : Outcome Z :=
  if negb (isValidAmount amount)
  then Throw (Error ("Invalid amount: " ++ Numeric_toString amount))
  else
    bigintAmount <- BigInt (Numeric_toString amount) ;;
    if bigintAmount <? 0
    then Throw (Error ("Amount must be non-negative: " ++ Numeric_toString amount))
    else Return bigintAmount.

Definition isValidRate (rate : Numeric) : bool :=
  match BigInt (Numeric_toString rate) with
  | Return bigintRate => 0 <? bigintRate
  | Throw _ => false
  end.

Definition validateRate (rate : Numeric) : Outcome Z :=
  if negb (isValidRate rate)
  then Throw (Error ("Invalid rate: " ++ Numeric_toString rate))
  else
    bigintRate <- BigInt (Numeric_toString rate) ;;
    if bigintRate <=? 0
    then Throw (Error ("Rate must be positive: " ++ Numeric_toString rate))
    else Return bigintRate.

(** [decimals] ranges over the integers, on which [Number.isInteger] holds *)
Definition validateRateDecimals (decimals : Z) : Outcome Z :=
  if (decimals <? 0) || (18 <? decimals)
  then Throw (Error ("Invalid rate decimals: " ++ JsBigInt.toString decimals
                     ++ ". Must be integer between 0 and 18."))
  else Return decimals.

Definition isValidUrl `{Host} (url : string) : bool := URL_parses url.

Definition validateUrl `{Host} (url : string) : Outcome string :=
  if negb (isValidUrl url)
  then Throw (Error ("Invalid URL: " ++ url))
  else Return url.

(** [validateStringLength(value, { min, max, fieldName })] with the three
    options given, as at every call in the source *)
Definition validateStringLength (value : string) (min max : Z) (fieldName : string)
  : Outcome string :=
  if Z.of_nat (String.length value) <? min
  then Throw (Error (fieldName ++ " must be at least " ++ JsBigInt.toString min
                     ++ " characters long"))
  else if max <? Z.of_nat (String.length value)
  then Throw (Error (fieldName ++ " must be at most " ++ JsBigInt.toString max
                     ++ " characters long"))
  else Return value.

(** a host for running the code on concrete inputs: a URL is anything that
    starts with a scheme of the web, an address anything the validator above
    accepts, and every vault is a SUI vault *)
Definition sampleHost : Host := {|
  URL_parses := fun s => JsString.startsWith s "https://" || JsString.startsWith s "http://";
  sui_address_encodes := isValidSuiAddress;
  inferOutputTypeFromVault := fun _ => Return "0x2::sui::SUI"
|}.

Module VaultConfig.
Record t : Type := mk {
  rate : Numeric;
  rateDecimals : Z;
  symbol : string;
  name : string;
  description : string;
  iconUrl : option string;
  inputCoinType : string;
  outputCoinType : string
}.
End VaultConfig.

(** the truthiness of an optional string: present and not empty *)
Definition truthy (o : option string) : option string :=
  match o with
  | Some s => if JsString.isEmpty s then None else Some s
  | None => None
  end.

Definition validateVaultConfig `{Host} (config : VaultConfig.t) : Outcome unit :=
  validateRate (VaultConfig.rate config) ;;
  validateRateDecimals (VaultConfig.rateDecimals config) ;;
  validateStringLength (VaultConfig.symbol config) 1 32 "Symbol" ;;
  validateStringLength (VaultConfig.name config) 1 256 "Name" ;;
  validateStringLength (VaultConfig.description config) 1 1000 "Description" ;;
  validateCoinType (VaultConfig.inputCoinType config) ;;
  validateCoinType (VaultConfig.outputCoinType config) ;;
  match truthy (VaultConfig.iconUrl config) with
  | Some url => validateUrl url ;; Return tt
  | None => Return tt
  end.

(* ===================================================================== *)
(** ** The transaction accumulator *)
(* ===================================================================== *)

Inductive PureValue : Type :=
| U64 (v : Z)
| U8 (v : Z)
| VectorU8 (bytes : list Z)
| PureString (s : string)
| PureAddress (s : string).

(** an argument of a call: an encoded pure value, an object given by its id,
    or (an element of) the result of an earlier call of the transaction *)
Inductive Argument : Type :=
| Pure (p : PureValue)
| Object (id : string)
| Result (call : nat)
| NestedResult (call index : nat).

Inductive Command : Type :=
| MoveCall (target : string) (typeArguments : list string) (arguments : list Argument)
| TransferObjects (objects : list Argument) (address : Argument).

(** The accumulator is the ordered list of pending calls.  (The table of
    inputs that the SDK keeps beside it is not observed by any property
    below and is left out.) *)
Definition Transaction : Type := list Command.

(** [TransactionObjectInput]: an object id, or an argument already resolved *)
Inductive TransactionObjectInput : Type :=
| ObjectId (id : string)
| Resolved (arg : Argument).

(** a computation over the caller's transaction: the transaction it leaves
    behind, whether it returns or throws *)
Definition Build (A : Type) : Type := Transaction -> Transaction * Outcome A.

Definition ret {A} (a : A) : Build A := fun tx => (tx, Return a).

Definition lift {A} (o : Outcome A) : Build A := fun tx => (tx, o).

Definition bindB {A B} (m : Build A) (k : A -> Build B) : Build B :=
  fun tx =>
    match m tx with
    | (tx', Return a) => k a tx'
    | (tx', Throw e) => (tx', Throw e)
    end.

Declare Scope build_scope.
Delimit Scope build_scope with build.
Notation "x <- c ;; k" := (bindB c (fun x => k))
  (at level 61, c at next level, right associativity) : build_scope.
Notation "c ;; k" := (bindB c (fun _ => k))
  (at level 61, right associativity) : build_scope.

(** [tx.moveCall({...})] and [tx.transferObjects(...)]: append the call and
    return the index under which its result is known *)
Definition add (c : Command) : Build nat :=
  fun tx => ((tx ++ [c])%list, Return (List.length tx)).

Definition moveCall (target : string) (typeArguments : list string)
  (arguments : list Argument) : Build nat :=
  add (MoveCall target typeArguments arguments).

Definition transferObjects (objects : list Argument) (address : Argument) : Build nat :=
  add (TransferObjects objects address).

(** [const [x] = tx.moveCall(...)] *)
Definition first (call : nat) : Argument := NestedResult call 0.

(** [tx.object(id)] *)
Definition tx_object (id : string) : Argument := Object id.

(** [typeof x === 'string' ? tx.object(x) : x] *)
Definition objectOrHandle (x : TransactionObjectInput) : Argument :=
  match x with
  | ObjectId id => tx_object id
  | Resolved arg => arg
  end.

(** [tx.pure.u64(s)]: the BCS encoder takes [BigInt(s)] and refuses a value
    outside [0, 2^64 - 1] with a TypeError *)
Definition pure_u64 (s : string) : Outcome Argument :=
  value <- BigInt s ;;
  if (value <? 0) || (MAX_U64 <? value) then Throw TypeError
  else Return (Pure (U64 value)).

(** [tx.pure.u8(n)]: refuses a value outside [0, 255] with a TypeError *)
Definition pure_u8 (n : Z) : Outcome Argument :=
  if (n <? 0) || (255 <? n) then Throw TypeError
  else Return (Pure (U8 n)).

(** [tx.pure.vector('u8', bytes)]: every element goes through the u8 encoder *)
Definition pure_vector_u8 (bytes : list Z) : Outcome Argument :=
  if forallb (fun b => (0 <=? b) && (b <=? 255)) bytes
  then Return (Pure (VectorU8 bytes))
  else Throw TypeError.

(** [tx.pure.string(s)] *)
Definition pure_string (s : string) : Argument := Pure (PureString s).

(** [tx.pure.address(s)]: the encoder refuses what is not an address *)
Definition pure_address `{Host} (s : string) : Outcome Argument :=
  if sui_address_encodes s then Return (Pure (PureAddress s))
  else Throw (Error ("Invalid Sui address " ++ s)).

(** [VAULT_MODULES] and [VAULT_FUNCTIONS] of [src/constants] *)
Module VAULT_MODULES.
Definition VAULT : string := "vault".
End VAULT_MODULES.

Module VAULT_FUNCTIONS.
Definition CREATE_VAULT : string := "create_vault".
Definition MINT : string := "mint".
Definition REDEEM : string := "redeem".
Definition DEPOSIT : string := "deposit".
Definition WITHDRAW : string := "withdraw".
Definition SET_RATE : string := "set_rate".
End VAULT_FUNCTIONS.

(** [`${packageId}::${VAULT_MODULES.VAULT}::${fn}`] *)
Definition target_of (packageId fn : string) : string :=
  packageId ++ "::" ++ VAULT_MODULES.VAULT ++ "::" ++ fn.

(* ===================================================================== *)
(** ** Call builders ([src/utils/transactions.ts]) *)
(* ===================================================================== *)

#[local] Open Scope build_scope.

Module CreateVaultParams.
Record t : Type := mk {
  rate : Numeric;
  outputCoinTreasury : TransactionObjectInput;
  rateDecimals : Z;
  symbol : string;
  name : string;
  description : string;
  iconUrl : option string;
  inputCoinType : string;
  outputCoinType : string
}.
End CreateVaultParams.

Definition buildCreateVaultTx (packageId : string) (params : CreateVaultParams.t)
  : Build unit :=
  let symbolBytes := JsString.utf8 (CreateVaultParams.symbol params) in
  let nameBytes := JsString.utf8 (CreateVaultParams.name params) in
  let descriptionBytes := JsString.utf8 (CreateVaultParams.description params) in
  optionUrl <-
    match truthy (CreateVaultParams.iconUrl params) with
    | Some iconUrl =>
        urlVal <- moveCall "0x2::url::new_unsafe" [] [pure_string iconUrl] ;;
        some <- moveCall "0x1::option::some" ["0x2::url::Url"] [first urlVal] ;;
        ret (first some)
    | None =>
        none <- moveCall "0x1::option::none" ["0x2::url::Url"] [] ;;
        ret (first none)
    end ;;
  rate <- lift (pure_u64 (Numeric_toString (CreateVaultParams.rate params))) ;;
  treasury <- ret (objectOrHandle (CreateVaultParams.outputCoinTreasury params)) ;;
  rateDecimals <- lift (pure_u8 (CreateVaultParams.rateDecimals params)) ;;
  symbol <- lift (pure_vector_u8 symbolBytes) ;;
  name <- lift (pure_vector_u8 nameBytes) ;;
  description <- lift (pure_vector_u8 descriptionBytes) ;;
  moveCall (target_of packageId VAULT_FUNCTIONS.CREATE_VAULT)
    [CreateVaultParams.inputCoinType params; CreateVaultParams.outputCoinType params]
    [rate; treasury; rateDecimals; symbol; name; description; optionUrl] ;;
  ret tt.

Module MintParams.
Record t : Type := mk {
  vaultId : string;
  metadataId : string;
  inputCoin : TransactionObjectInput;
  inputCoinType : string;
  outputCoinType : string
}.
End MintParams.

Definition buildMintTx (packageId : string) (params : MintParams.t) : Build Argument :=
  minted <- moveCall (target_of packageId VAULT_FUNCTIONS.MINT)
    [MintParams.inputCoinType params; MintParams.outputCoinType params]
    [tx_object (MintParams.vaultId params);
     tx_object (MintParams.metadataId params);
     objectOrHandle (MintParams.inputCoin params)] ;;
  ret (first minted).

Module RedeemParams.
Record t : Type := mk {
  vaultId : string;
  metadataId : string;
  outputCoin : TransactionObjectInput;
  inputCoinType : string;
  outputCoinType : string
}.
End RedeemParams.

Definition buildRedeemTx (packageId : string) (params : RedeemParams.t) : Build Argument :=
  redeemed <- moveCall (target_of packageId VAULT_FUNCTIONS.REDEEM)
    [RedeemParams.inputCoinType params; RedeemParams.outputCoinType params]
    [tx_object (RedeemParams.vaultId params);
     tx_object (RedeemParams.metadataId params);
     objectOrHandle (RedeemParams.outputCoin params)] ;;
  ret (first redeemed).

Module DepositTxParams.
Record t : Type := mk {
  ownerCap : TransactionObjectInput;
  vaultId : string;
  inputCoin : TransactionObjectInput;
  inputCoinType : string;
  outputCoinType : string
}.
End DepositTxParams.

Definition buildDepositTx (packageId : string) (params : DepositTxParams.t) : Build unit :=
  moveCall (target_of packageId VAULT_FUNCTIONS.DEPOSIT)
    [DepositTxParams.inputCoinType params; DepositTxParams.outputCoinType params]
    [objectOrHandle (DepositTxParams.ownerCap params);
     tx_object (DepositTxParams.vaultId params);
     objectOrHandle (DepositTxParams.inputCoin params)] ;;
  ret tt.

Module WithdrawTxParams.
Record t : Type := mk {
  ownerCap : TransactionObjectInput;
  vaultId : string;
  amount : Numeric;
  inputCoinType : string;
  outputCoinType : string
}.
End WithdrawTxParams.

Definition buildWithdrawTx (packageId : string) (params : WithdrawTxParams.t)
  : Build Argument :=
  ownerCap <- ret (objectOrHandle (WithdrawTxParams.ownerCap params)) ;;
  vault <- ret (tx_object (WithdrawTxParams.vaultId params)) ;;
  amount <- lift (pure_u64 (Numeric_toString (WithdrawTxParams.amount params))) ;;
  withdrawn <- moveCall (target_of packageId VAULT_FUNCTIONS.WITHDRAW)
    [WithdrawTxParams.inputCoinType params; WithdrawTxParams.outputCoinType params]
    [ownerCap; vault; amount] ;;
  ret (first withdrawn).

Module SetRateTxParams.
Record t : Type := mk {
  ownerCap : TransactionObjectInput;
  vaultId : string;
  newRate : Numeric;
  inputCoinType : string;
  outputCoinType : string
}.
End SetRateTxParams.

Definition buildSetRateTx (packageId : string) (params : SetRateTxParams.t) : Build unit :=
  ownerCap <- ret (objectOrHandle (SetRateTxParams.ownerCap params)) ;;
  vault <- ret (tx_object (SetRateTxParams.vaultId params)) ;;
  newRate <- lift (pure_u64 (Numeric_toString (SetRateTxParams.newRate params))) ;;
  moveCall (target_of packageId VAULT_FUNCTIONS.SET_RATE)
    [SetRateTxParams.inputCoinType params; SetRateTxParams.outputCoinType params]
    [ownerCap; vault; newRate] ;;
  ret tt.

(* ===================================================================== *)
(** ** The client ([src/client/VaultClient.ts]) *)
(* ===================================================================== *)

(** The methods are [async]: what they throw rejects the promise they
    return.  [packageId] is [this.config.network.packageId]. *)

Definition isObjectIdString (value : string) : bool := JsString.test_0x_hex64 value.

Definition createVault `{Host} (packageId : string) (config : VaultConfig.t)
  (outputCoinTreasury : TransactionObjectInput) : Build unit :=
  lift (validateVaultConfig config) ;;
  buildCreateVaultTx packageId
    (CreateVaultParams.mk
       (VaultConfig.rate config)
       outputCoinTreasury
       (VaultConfig.rateDecimals config)
       (VaultConfig.symbol config)
       (VaultConfig.name config)
       (VaultConfig.description config)
       (truthy (VaultConfig.iconUrl config))
       (VaultConfig.inputCoinType config)
       (VaultConfig.outputCoinType config)).

Definition mint (packageId : string) (params : MintParams.t) : Build Argument :=
  lift (validateCoinType (MintParams.inputCoinType params)) ;;
  lift (validateCoinType (MintParams.outputCoinType params)) ;;
  inputCoin <- lift (match MintParams.inputCoin params with
          | ObjectId s =>
              if negb (isObjectIdString s) then Throw (VaultError INVALID_PARAMETERS)
              else Return (ObjectId s)
          | Resolved arg => Return (Resolved arg)
          end) ;;
  buildMintTx packageId
    (MintParams.mk (MintParams.vaultId params) (MintParams.metadataId params)
       inputCoin (MintParams.inputCoinType params) (MintParams.outputCoinType params)).

Definition mint_and_transfer `{Host} (packageId : string) (params : MintParams.t)
  (recipient : string) : Build unit :=
  lift (validateCoinType (MintParams.inputCoinType params)) ;;
  lift (validateCoinType (MintParams.outputCoinType params)) ;;
  inputCoin <- lift (match MintParams.inputCoin params with
          | ObjectId s =>
              if negb (isObjectIdString s) then Throw (VaultError INVALID_PARAMETERS)
              else Return (ObjectId s)
          | Resolved arg => Return (Resolved arg)
          end) ;;
  minted <- buildMintTx packageId
    (MintParams.mk (MintParams.vaultId params) (MintParams.metadataId params)
       inputCoin (MintParams.inputCoinType params) (MintParams.outputCoinType params)) ;;
  address <- lift (pure_address recipient) ;;
  transferObjects [minted] address ;;
  ret tt.

Definition redeem (packageId : string) (params : RedeemParams.t) : Build Argument :=
  lift (validateCoinType (RedeemParams.inputCoinType params)) ;;
  lift (validateCoinType (RedeemParams.outputCoinType params)) ;;
  buildRedeemTx packageId
    (RedeemParams.mk (RedeemParams.vaultId params) (RedeemParams.metadataId params)
       (RedeemParams.outputCoin params)
       (RedeemParams.inputCoinType params) (RedeemParams.outputCoinType params)).

Definition redeem_and_transfer `{Host} (packageId : string) (params : RedeemParams.t)
  (recipient : string) : Build unit :=
  lift (validateCoinType (RedeemParams.inputCoinType params)) ;;
  lift (validateCoinType (RedeemParams.outputCoinType params)) ;;
  outputCoin <- lift (match RedeemParams.outputCoin params with
          | ObjectId s =>
              if negb (isObjectIdString s) then Throw (VaultError INVALID_PARAMETERS)
              else Return (ObjectId s)
          | Resolved arg => Return (Resolved arg)
          end) ;;
  redeemed <- buildRedeemTx packageId
    (RedeemParams.mk (RedeemParams.vaultId params) (RedeemParams.metadataId params)
       outputCoin (RedeemParams.inputCoinType params) (RedeemParams.outputCoinType params)) ;;
  address <- lift (pure_address recipient) ;;
  transferObjects [redeemed] address ;;
  ret tt.

Module DepositParams.
Record t : Type := mk {
  ownerCap : TransactionObjectInput;
  vaultId : string;
  inputCoin : TransactionObjectInput;
  inputCoinType : string
}.
End DepositParams.

Definition deposit `{Host} (packageId : string) (params : DepositParams.t) : Build unit :=
  lift (validateCoinType (DepositParams.inputCoinType params)) ;;
  inputCoin <- lift (match DepositParams.inputCoin params with
          | ObjectId s =>
              if negb (isObjectIdString s) then Throw (VaultError INVALID_PARAMETERS)
              else Return (ObjectId s)
          | Resolved arg => Return (Resolved arg)
          end) ;;
  outputCoinType <- lift (inferOutputTypeFromVault (DepositParams.vaultId params)) ;;
  buildDepositTx packageId
    (DepositTxParams.mk (DepositParams.ownerCap params) (DepositParams.vaultId params)
       inputCoin (DepositParams.inputCoinType params) outputCoinType).


(* ===================================================================== *)
(** ** The vocabulary of the specification *)
(* ===================================================================== *)

(** a string of hexadecimal digits *)
Definition HexDigits (h : string) : Prop :=
  forall c, In c (list_ascii_of_string h) ->
            In c (list_ascii_of_string "0123456789abcdefABCDEF").

(** an address: [0x] followed by 1 to 64 hexadecimal digits *)
Definition AddressShape (s : string) : Prop :=
  exists h, s = "0x" ++ h /\ (1 <= String.length h <= 64)%nat /\ HexDigits h.

(** an object id: [0x] followed by 64 hexadecimal digits *)
Definition ObjectIdShape (s : string) : Prop :=
  exists h, s = "0x" ++ h /\ String.length h = 64%nat /\ HexDigits h.

(** running a list of checks in order up to the first that fails *)
Fixpoint firstFailure (checks : list (Outcome unit)) : Outcome unit :=
  match checks with
  | [] => Return tt
  | Return _ :: rest => firstFailure rest
  | Throw e :: _ => Throw e
  end.

Definition check {A} (o : Outcome A) : Outcome unit := bindO o (fun _ => Return tt).

(** the checks of a vault configuration, one by one *)
Definition rateCheck (c : VaultConfig.t) : Outcome unit :=
  check (validateRate (VaultConfig.rate c)).
Definition rateDecimalsCheck (c : VaultConfig.t) : Outcome unit :=
  check (validateRateDecimals (VaultConfig.rateDecimals c)).
Definition symbolCheck (c : VaultConfig.t) : Outcome unit :=
  check (validateStringLength (VaultConfig.symbol c) 1 32 "Symbol").
Definition nameCheck (c : VaultConfig.t) : Outcome unit :=
  check (validateStringLength (VaultConfig.name c) 1 256 "Name").
Definition descriptionCheck (c : VaultConfig.t) : Outcome unit :=
  check (validateStringLength (VaultConfig.description c) 1 1000 "Description").
Definition inputTypeCheck (c : VaultConfig.t) : Outcome unit :=
  check (validateCoinType (VaultConfig.inputCoinType c)).
Definition outputTypeCheck (c : VaultConfig.t) : Outcome unit :=
  check (validateCoinType (VaultConfig.outputCoinType c)).
Definition iconUrlCheck `{Host} (c : VaultConfig.t) : Outcome unit :=
  match truthy (VaultConfig.iconUrl c) with
  | Some url => check (validateUrl url)
  | None => Return tt
  end.

(** ... and in the order in which the specification lists them *)
Definition vaultConfigChecks `{Host} (c : VaultConfig.t) : list (Outcome unit) :=
  [rateCheck c; rateDecimalsCheck c; symbolCheck c; nameCheck c; descriptionCheck c;
   inputTypeCheck c; outputTypeCheck c; iconUrlCheck c].

(** the calls of a create-vault build, by name *)
Definition optionNoneCall : Command :=
  MoveCall "0x1::option::none" ["0x2::url::Url"] [].

Definition urlCall (iconUrl : string) : Command :=
  MoveCall "0x2::url::new_unsafe" [] [Pure (PureString iconUrl)].

Definition optionSomeCall (url : nat) : Command :=
  MoveCall "0x1::option::some" ["0x2::url::Url"] [NestedResult url 0].

Definition createVaultCall (packageId : string) (params : CreateVaultParams.t)
  (rate : Z) (optionUrl : Argument) : Command :=
  MoveCall (target_of packageId VAULT_FUNCTIONS.CREATE_VAULT)
    [CreateVaultParams.inputCoinType params; CreateVaultParams.outputCoinType params]
    [Pure (U64 rate);
     objectOrHandle (CreateVaultParams.outputCoinTreasury params);
     Pure (U8 (CreateVaultParams.rateDecimals params));
     Pure (VectorU8 (JsString.utf8 (CreateVaultParams.symbol params)));
     Pure (VectorU8 (JsString.utf8 (CreateVaultParams.name params)));
     Pure (VectorU8 (JsString.utf8 (CreateVaultParams.description params)));
     optionUrl].

(** the auxiliary calls of a create-vault build on a transaction of [n]
    calls, and the handle of the optional URL that they produce *)
Definition auxiliaryCalls (n : nat) (iconUrl : option string) : list Command :=
  match truthy iconUrl with
  | Some url => [urlCall url; optionSomeCall n]
  | None => [optionNoneCall]
  end.

Definition optionUrlHandle (n : nat) (iconUrl : option string) : Argument :=
  match truthy iconUrl with
  | Some _ => NestedResult (S n) 0
  | None => NestedResult n 0
  end.

(** the encoding of the arguments of the main call, in the order in which
    the elements of the argument array are evaluated *)
Definition encodeCreateVaultArguments (params : CreateVaultParams.t) (optionUrl : Argument)
  : Outcome (list Argument) :=
  bindO (pure_u64 (Numeric_toString (CreateVaultParams.rate params))) (fun rate =>
  bindO (pure_u8 (CreateVaultParams.rateDecimals params)) (fun rateDecimals =>
  bindO (pure_vector_u8 (JsString.utf8 (CreateVaultParams.symbol params))) (fun symbol =>
  bindO (pure_vector_u8 (JsString.utf8 (CreateVaultParams.name params))) (fun name =>
  bindO (pure_vector_u8 (JsString.utf8 (CreateVaultParams.description params)))
    (fun description =>
  Return [rate; objectOrHandle (CreateVaultParams.outputCoinTreasury params);
          rateDecimals; symbol; name; description; optionUrl]))))).

(** the configuration that a create-vault build is given *)
Definition configOf (params : CreateVaultParams.t) : VaultConfig.t :=
  VaultConfig.mk
    (CreateVaultParams.rate params)
    (CreateVaultParams.rateDecimals params)
    (CreateVaultParams.symbol params)
    (CreateVaultParams.name params)
    (CreateVaultParams.description params)
    (CreateVaultParams.iconUrl params)
    (CreateVaultParams.inputCoinType params)
    (CreateVaultParams.outputCoinType params).

(** the calls that a build leaves appended to the transaction it was given *)
Definition appended {A} (b : Build A) (tx : Transaction) : list Command :=
  List.skipn (List.length tx) (fst (b tx)).

(** all or nothing: whatever the transaction, the build either throws and
    leaves it as it was, or returns having appended its calls *)
Definition atomic {A} (b : Build A) : Prop :=
  forall tx,
    (exists e, b tx = (tx, Throw e))
    \/ (exists calls v, b tx = ((tx ++ calls)%list, Return v)).

(** sample inputs *)
Module Sample.

Definition packageId : string :=
  "0x00000000000000000000000000000000000000000000000000000000000000aa".

Definition coinId : string :=
  "0x0123456789abcdef0123456789abcdef0123456789ABCDEF0123456789ABCDEF".

Definition treasury : TransactionObjectInput := ObjectId "0x5".

(** the configuration of the quick start *)
Definition config : VaultConfig.t :=
  VaultConfig.mk (NumString "2000000000") 9 "SUI-USDC" "SUI to USDC Vault"
    "Fixed-rate tokenized vault" None "0x2::sui::SUI" "0x2::usdc::USDC".

Definition configWithIcon : VaultConfig.t :=
  VaultConfig.mk (NumString "2000000000") 9 "SUI-USDC" "SUI to USDC Vault"
    "Fixed-rate tokenized vault" (Some "https://riva.example/icon.png")
    "0x2::sui::SUI" "0x2::usdc::USDC".

(** the same with the rate [2^64], one above [MAX_U64] *)
Definition configRateAbove : VaultConfig.t :=
  VaultConfig.mk (NumBigInt 18446744073709551616) 9 "SUI-USDC" "SUI to USDC Vault"
    "Fixed-rate tokenized vault" None "0x2::sui::SUI" "0x2::usdc::USDC".

(** the configuration with an icon and the rate [2^64] *)
Definition configWithIconRateAbove : VaultConfig.t :=
  VaultConfig.mk (NumBigInt 18446744073709551616) 9 "SUI-USDC" "SUI to USDC Vault"
    "Fixed-rate tokenized vault" (Some "https://riva.example/icon.png")
    "0x2::sui::SUI" "0x2::usdc::USDC".

Definition paramsOf (c : VaultConfig.t) : CreateVaultParams.t :=
  CreateVaultParams.mk (VaultConfig.rate c) treasury (VaultConfig.rateDecimals c)
    (VaultConfig.symbol c) (VaultConfig.name c) (VaultConfig.description c)
    (VaultConfig.iconUrl c) (VaultConfig.inputCoinType c) (VaultConfig.outputCoinType c).

(** a mint whose input coin is a bare amount *)
Definition mintBareAmount : MintParams.t :=
  MintParams.mk "0x1" "0x2" (ObjectId "1000") "0x2::sui::SUI" "0x2::usdc::USDC".

(** the same with an input coin type whose module name starts with a digit *)
Definition mintBadType : MintParams.t :=
  MintParams.mk "0x1" "0x2" (ObjectId "1000") "0x2::1abc::SUI" "0x2::usdc::USDC".

Definition redeemBareAmount : RedeemParams.t :=
  RedeemParams.mk "0x1" "0x2" (ObjectId "1000") "0x2::sui::SUI" "0x2::usdc::USDC".

Definition redeemBadType : RedeemParams.t :=
  RedeemParams.mk "0x1" "0x2" (ObjectId "1000") "0x2::1abc::SUI" "0x2::usdc::USDC".

(** a configuration whose symbol and description are both too long *)
Definition configTwoFaults : VaultConfig.t :=
  VaultConfig.mk (NumString "2000000000") 9 "A-SYMBOL-OF-MORE-THAN-THIRTY-TWO-CHARACTERS"
    "SUI to USDC Vault" (JsString.repeat "d" 1001) None "0x2::sui::SUI" "0x2::usdc::USDC".

Definition depositBareAmount : DepositParams.t :=
  DepositParams.mk (ObjectId "0x9") "0x1" (ObjectId "1000") "0x2::sui::SUI".

End Sample.

(* ===================================================================== *)
(** ** More of the math utilities, the validators and the client *)
(* ===================================================================== *)

(** [calculateExchangeRate(inputAmount, outputAmount, rateDecimals)] *)
Definition calculateExchangeRate (inputAmount outputAmount : Z) (rateDecimals : N)
  : Outcome Z :=
  let inputBN := BigNumber.of_Z inputAmount in
  let outputBN := BigNumber.of_Z outputAmount in
  let multiplier := BigNumber.pow (BigNumber.of_Z 10) rateDecimals in
  if BigNumber.lte inputBN (BigNumber.of_Z 0) then Throw (VaultError DIVISION_BY_ZERO)
  else
    let rate := BigNumber.div (BigNumber.multipliedBy outputBN multiplier) inputBN in
    if BigNumber.gt rate (BigNumber.of_Z MAX_U64) then Throw (VaultError ARITHMETIC_OVERFLOW)
    else BigInt (BigNumber.toString_integer (BigNumber.integerValue rate)).

(** [validateAmountBounds(amount, { min, max })]; an option left out is
    [None] and takes its default *)
Definition validateAmountBounds (amount : Numeric) (min max : option Z) : Outcome Z :=
  bindO (validateAmount amount) (fun validAmount =>
  let min := match min with Some m => m | None => 0 end in
  let max := match max with Some m => m | None => 18446744073709551615 end in
  if validAmount <? min
  then Throw (Error ("Amount " ++ JsBigInt.toString validAmount
                     ++ " is below minimum " ++ JsBigInt.toString min))
  else if max <? validAmount
  then Throw (Error ("Amount " ++ JsBigInt.toString validAmount
                     ++ " exceeds maximum " ++ JsBigInt.toString max))
  else Return validAmount).

Definition isValidObjectId (objectId : string) : bool := isValidSuiAddress objectId.

Definition validateObjectId (objectId : string) : Outcome string :=
  if negb (isValidObjectId objectId)
  then Throw (Error ("Invalid object ID: " ++ objectId))
  else validateSuiAddress objectId.

(** the character class [[1-9A-HJ-NP-Za-km-z]] *)
Definition isDigestChar (c : ascii) : bool :=
  JsString.between 49 57 c || JsString.between 65 72 c || JsString.between 74 78 c
  || JsString.between 80 90 c || JsString.between 97 107 c || JsString.between 109 122 c.

(** [/^[1-9A-HJ-NP-Za-km-z]{43,44}$/.test(digest)] after the guard on the
    empty string *)
Definition isValidTxDigest (digest : string) : bool :=
  if JsString.isEmpty digest then false
  else (43 <=? String.length digest)%nat && (String.length digest <=? 44)%nat
       && JsString.all isDigestChar digest.

(** [s.trim()]: the white space of [trim] is that of StrWhiteSpaceChar *)
Definition trim (s : string) : string := JsBigInt.trimEnd (JsBigInt.trimStart s).

(** [isNonEmptyString(value)] on a value that is a string *)
Definition isNonEmptyString (value : string) : bool :=
  (0 <? String.length (trim value))%nat.

Definition validateNonEmptyString (value fieldName : string) : Outcome string :=
  if negb (isNonEmptyString value)
  then Throw (Error (fieldName ++ " must be a non-empty string"))
  else Return value.

(** [normalizeAddress(address)] of [src/utils/index.ts] *)
Definition normalizeAddress (address : string) : Outcome string :=
  if JsString.isEmpty address then Throw (Error "Address cannot be empty")
  else
    let cleaned := if JsString.startsWith address "0x" then JsString.slice 2 address
                   else address in
    let padded := JsString.padStart 64 "0" cleaned in
    Return ("0x" ++ padded).

(** [/^0x[a-fA-F0-9]+$/.test(s)] *)
Definition test_0x_hex_plus (s : string) : bool :=
  match s with
  | String "0" (String "x" h) => JsString.test_hex_plus h
  | _ => false
  end.

(** [formatCoinType(coinType)] of [src/utils/formatters.ts] *)
Definition formatCoinType (coinType : string) : Outcome string :=
  let cleaned := trim coinType in
  if negb (JsString.startsWith cleaned "0x")
  then Throw (Error ("Invalid coin type format: " ++ coinType))
  else
    match JsString.split_colons cleaned with
    | [address; module; struct] =>
        if negb (test_0x_hex_plus address)
        then Throw (Error ("Invalid address in coin type: " ++ address))
        else if negb (JsString.test_identifier module)
        then Throw (Error ("Invalid module name in coin type: " ++ module))
        else if negb (JsString.test_identifier struct)
        then Throw (Error ("Invalid struct name in coin type: " ++ struct))
        else Return cleaned
    | _ => Throw (Error ("Invalid coin type format: " ++ coinType))
    end.

(** the other chain query of the client, behind [inferInputTypeFromVault] *)
Class InputTypeQuery : Type := {
  inferInputTypeFromVault : string -> Outcome string
}.

Definition sampleInputTypeQuery : InputTypeQuery := {|
  inferInputTypeFromVault := fun _ => Return "0x2::sui::SUI"
|}.

Module WithdrawParams.
Record t : Type := mk {
  ownerCap : TransactionObjectInput;
  vaultId : string;
  amount : Numeric;
  inputCoinType : string
}.
End WithdrawParams.

Definition withdraw `{Host} (packageId : string) (params : WithdrawParams.t)
  : Build Argument :=
  amount <- lift (validateAmount (WithdrawParams.amount params)) ;;
  lift (validateCoinType (WithdrawParams.inputCoinType params)) ;;
  outputCoinType <- lift (inferOutputTypeFromVault (WithdrawParams.vaultId params)) ;;
  buildWithdrawTx packageId
    (WithdrawTxParams.mk (WithdrawParams.ownerCap params) (WithdrawParams.vaultId params)
       (NumBigInt amount) (WithdrawParams.inputCoinType params) outputCoinType).

Definition withdraw_and_transfer `{Host} (packageId : string) (params : WithdrawParams.t)
  (recipient : string) : Build unit :=
  amount <- lift (validateAmount (WithdrawParams.amount params)) ;;
  lift (validateCoinType (WithdrawParams.inputCoinType params)) ;;
  outputCoinType <- lift (inferOutputTypeFromVault (WithdrawParams.vaultId params)) ;;
  withdrawn <- buildWithdrawTx packageId
    (WithdrawTxParams.mk (WithdrawParams.ownerCap params) (WithdrawParams.vaultId params)
       (NumBigInt amount) (WithdrawParams.inputCoinType params) outputCoinType) ;;
  address <- lift (pure_address recipient) ;;
  transferObjects [withdrawn] address ;;
  ret tt.

Module UpdateRateParams.
Record t : Type := mk {
  ownerCap : TransactionObjectInput;
  vaultId : string;
  newRate : Numeric
}.
End UpdateRateParams.

Definition updateRate `{Host} `{InputTypeQuery} (packageId : string)
  (params : UpdateRateParams.t) : Build unit :=
  newRate <- lift (validateRate (UpdateRateParams.newRate params)) ;;
  inputCoinType <- lift (inferInputTypeFromVault (UpdateRateParams.vaultId params)) ;;
  outputCoinType <- lift (inferOutputTypeFromVault (UpdateRateParams.vaultId params)) ;;
  buildSetRateTx packageId
    (SetRateTxParams.mk (UpdateRateParams.ownerCap params) (UpdateRateParams.vaultId params)
       (NumBigInt newRate) inputCoinType outputCoinType).

(** ** More vocabulary *)

(** an identifier: a letter or an underscore, then letters, digits and
    underscores *)
Definition IdentifierShape (s : string) : Prop :=
  exists c rest,
    s = String c rest
    /\ In c (list_ascii_of_string "abcdefghijklmnopqrstuvwxyzABCDEFGHIJKLMNOPQRSTUVWXYZ_")
    /\ (forall x, In x (list_ascii_of_string rest) ->
          In x (list_ascii_of_string
                  "abcdefghijklmnopqrstuvwxyzABCDEFGHIJKLMNOPQRSTUVWXYZ_0123456789")).

(** a coin type: an address, a module name and a type name, joined by [::] *)
Definition CoinTypeShape (s : string) : Prop :=
  exists address module struct,
    s = address ++ "::" ++ module ++ "::" ++ struct
    /\ AddressShape address /\ IdentifierShape module /\ IdentifierShape struct.

(** a string without a colon *)
Definition noColon (s : string) : Prop :=
  forall c, In c (list_ascii_of_string s) -> c <> ":"%char.

(** [parts.join('::')] *)
Fixpoint join_colons (parts : list string) : string :=
  match parts with
  | [] => ""
  | [part] => part
  | part :: rest => part ++ "::" ++ join_colons rest
  end.

(** the alphabet of base 58 *)
Definition base58 : string := "123456789ABCDEFGHJKLMNPQRSTUVWXYZabcdefghijkmnopqrstuvwxyz".

(** a build only ever appends: the calls already in the transaction stay as
    they are and where they are, whether the build returns or throws, and at
    most [n] calls come after them *)
Definition appendsAtMost {A} (n : nat) (b : Build A) : Prop :=
  forall tx, exists calls,
    fst (b tx) = (tx ++ calls)%list /\ (List.length calls <= n)%nat.

Module MoreSamples.

Definition withdrawAboveU64 : WithdrawParams.t :=
  WithdrawParams.mk (ObjectId "0x9") "0x1" (NumBigInt 18446744073709551616) "0x2::sui::SUI".

Definition setRateAboveU64 : UpdateRateParams.t :=
  UpdateRateParams.mk (ObjectId "0x9") "0x1" (NumString "18446744073709551616").

End MoreSamples.

(* ===================================================================== *)
(** * Properties *)
(* ===================================================================== *)

#[local] Close Scope build_scope.
#[local] Close Scope outcome_scope.

(** ** Numerals: what [BigInt] makes of what [toString] prints *)

Section Numerals.

Lemma digits_all_decimal u : JsString.all JsString.isDigit (NilEmpty.string_of_uint u) = true.
Proof. induction u; simpl; auto. Qed.

Lemma digits_nonempty p : JsBigInt.digits p <> EmptyString.
Proof.
  unfold JsBigInt.digits.
  pose proof (DecimalPos.Unsigned.to_uint_nonnil p) as Hn.
  destruct (Pos.to_uint p); simpl; congruence.
Qed.

Lemma isDigit_not_space c :
  JsString.isDigit c = true -> JsBigInt.isStrWhiteSpaceChar c = false.
Proof.
  destruct c as [[|] [|] [|] [|] [|] [|] [|] [|]]; vm_compute; congruence.
Qed.

Lemma trimEnd_decimal s :
  JsString.all JsString.isDigit s = true -> JsBigInt.trimEnd s = s.
Proof.
  induction s as [|c s IH]; simpl; auto.
  intros H. apply andb_prop in H as [Hc Hs].
  rewrite (IH Hs), (isDigit_not_space c Hc).
  destruct s; reflexivity.
Qed.

Lemma trimStart_decimal s :
  JsString.all JsString.isDigit s = true -> JsBigInt.trimStart s = s.
Proof.
  destruct s as [|c s]; simpl; auto.
  intros H. apply andb_prop in H as [Hc _].
  now rewrite (isDigit_not_space c Hc).
Qed.

(** a non-empty string of decimal digits is read as a decimal numeral *)
Lemma StringToBigInt_decimal s :
  JsString.all JsString.isDigit s = true ->
  s <> EmptyString ->
  JsBigInt.StringToBigInt s = JsBigInt.parseDecimal s.
Proof.
  intros Hall Hne. unfold JsBigInt.StringToBigInt.
  rewrite (trimStart_decimal s Hall), (trimEnd_decimal s Hall).
  destruct s as [|c s]; [congruence|].
  simpl in Hall. apply andb_prop in Hall as [Hc Hs].
  destruct c as [[|] [|] [|] [|] [|] [|] [|] [|]];
    try (vm_compute in Hc; discriminate Hc); try reflexivity.
  destruct s as [|c' s]; [reflexivity|].
  simpl in Hs. apply andb_prop in Hs as [Hc' _].
  destruct c' as [[|] [|] [|] [|] [|] [|] [|] [|]];
    try (vm_compute in Hc'; discriminate Hc'); reflexivity.
Qed.

Lemma parseDecimal_digits p : JsBigInt.parseDecimal (JsBigInt.digits p) = Some (Zpos p).
Proof.
  unfold JsBigInt.parseDecimal.
  pose proof (digits_nonempty p) as Hne.
  destruct (JsBigInt.digits p) eqn:E; [congruence|].
  rewrite <- E. unfold JsBigInt.digits.
  rewrite NilEmpty.usu. simpl.
  change (N.of_uint (Pos.to_uint p)) with (Pos.of_uint (Pos.to_uint p)).
  now rewrite DecimalPos.Unsigned.of_to.
Qed.

Lemma BigInt_digits p : BigInt (JsBigInt.digits p) = Return (Zpos p).
Proof.
  unfold BigInt.
  rewrite StringToBigInt_decimal, parseDecimal_digits; auto using digits_nonempty.
  apply digits_all_decimal.
Qed.

(** [BigInt(z.toString())] is [z], for every bigint [z] *)
Lemma BigInt_toString z : BigInt (JsBigInt.toString z) = Return z.
Proof.
  destruct z as [|p|p]; [reflexivity|apply BigInt_digits|].
  unfold BigInt, JsBigInt.toString, JsBigInt.StringToBigInt.
  pose proof (digits_all_decimal (Pos.to_uint p)) as Hall.
  fold (JsBigInt.digits p) in Hall.
  change (JsBigInt.trimStart (String "-" (JsBigInt.digits p)))
    with (String "-" (JsBigInt.digits p)).
  assert (JsBigInt.trimEnd (String "-" (JsBigInt.digits p))
          = String "-" (JsBigInt.digits p)) as ->.
  { simpl. rewrite (trimEnd_decimal _ Hall).
    pose proof (digits_nonempty p). destruct (JsBigInt.digits p); congruence. }
  now rewrite parseDecimal_digits.
Qed.

(** the base-10 exponent brackets its argument between powers of ten *)
Lemma exponent10_from_spec fuel : forall z,
  1 <= z < 2 ^ Z.of_nat fuel ->
  let e := BigNumber.exponent10_from fuel z in
  0 <= e /\ 10 ^ e <= z < 10 ^ (e + 1).
Proof.
  induction fuel as [|fuel IH]; intros z Hz.
  - simpl in Hz. lia.
  - cbn [BigNumber.exponent10_from]. destruct (Z.ltb_spec z 10) as [Hlt|Hge].
    + cbn. lia.
    + assert (1 <= z / 10 < 2 ^ Z.of_nat fuel) as Hq.
      { rewrite Nat2Z.inj_succ, Z.pow_succ_r in Hz by lia.
        split.
        - apply Z.div_le_lower_bound; lia.
        - apply Z.div_lt_upper_bound; lia. }
      specialize (IH _ Hq). cbv zeta in IH |- *.
      destruct IH as (He & Hlo & Hhi).
      set (e := BigNumber.exponent10_from fuel (z / 10)) in *.
      pose proof (Z.mul_div_le z 10 ltac:(lia)).
      pose proof (Z.mul_succ_div_gt z 10 ltac:(lia)).
      replace (1 + e + 1) with (Z.succ (e + 1)) by lia.
      replace (1 + e) with (Z.succ e) by lia.
      rewrite !Z.pow_succ_r by lia.
      lia.
Qed.

Lemma exponent10_spec p :
  0 <= BigNumber.exponent10 p /\
  10 ^ BigNumber.exponent10 p <= Zpos p < 10 ^ (BigNumber.exponent10 p + 1).
Proof.
  apply exponent10_from_spec. split; [lia|].
  apply Zpower2_Psize. lia.
Qed.

(** exponential notation sets in exactly at [10^18] *)
Lemma exponential_from_1e18 p :
  (BigNumber.TO_EXP_POS <=? BigNumber.exponent10 p) = true <-> 10 ^ 18 <= Zpos p.
Proof.
  destruct (exponent10_spec p) as (He & Hlo & Hhi).
  unfold BigNumber.TO_EXP_POS. rewrite Z.leb_le. split; intros H.
  - eapply Z.le_trans; [|exact Hlo]. apply Z.pow_le_mono_r; lia.
  - destruct (Z.le_gt_cases 18 (BigNumber.exponent10 p)) as [|Hc]; auto.
    assert (10 ^ (BigNumber.exponent10 p + 1) <= 10 ^ 18)
      by (apply Z.pow_le_mono_r; lia).
    lia.
Qed.

End Numerals.

(** ** What [BigInt] makes of a BigNumber's numeral *)

Section NumeralOfBigNumber.

Lemma trimEnd_keeps_head c s :
  JsBigInt.isStrWhiteSpaceChar c = false ->
  exists t, JsBigInt.trimEnd (String c s) = String c t.
Proof.
  intros Hc. simpl. rewrite Hc. destruct (JsBigInt.trimEnd s); eauto.
Qed.

(** a digit followed by a point or by the letter e starts no integer literal *)
Lemma StringToBigInt_point_or_e c x tail :
  JsString.isDigit c = true ->
  x = "."%char \/ x = "e"%char ->
  JsBigInt.StringToBigInt (String c (String x tail)) = None.
Proof.
  intros Hc Hx. unfold JsBigInt.StringToBigInt.
  assert (JsBigInt.isStrWhiteSpaceChar x = false) as Hxs
    by (destruct Hx; subst x; reflexivity).
  cbn [JsBigInt.trimStart]. rewrite (isDigit_not_space c Hc).
  destruct (trimEnd_keeps_head x tail Hxs) as [t Ht].
  assert (JsBigInt.trimEnd (String c (String x tail)) = String c (String x t)) as ->.
  { change (JsBigInt.trimEnd (String c (String x tail)))
      with (match JsBigInt.trimEnd (String x tail) with
            | EmptyString =>
                if JsBigInt.isStrWhiteSpaceChar c then EmptyString
                else String c EmptyString
            | r => String c r
            end).
    now rewrite Ht. }
  assert (JsBigInt.parseDecimal (String c (String x t)) = None) as Hdec.
  { unfold JsBigInt.parseDecimal. cbn [NilEmpty.uint_of_string].
    destruct Hx; subst x; destruct (NilEmpty.uint_of_string t); cbn;
      destruct (uint_of_char c None) eqn:E; try reflexivity;
      destruct c as [[|] [|] [|] [|] [|] [|] [|] [|]]; discriminate E. }
  destruct c as [[|] [|] [|] [|] [|] [|] [|] [|]];
    try (vm_compute in Hc; discriminate Hc);
    try exact Hdec.
  destruct Hx; subst x; exact Hdec.
Qed.

Lemma toExponential_shape c rest e :
  exists x tail,
    BigNumber.toExponential (String c rest) e = String c (String x tail)
    /\ (x = "."%char \/ x = "e"%char).
Proof.
  destruct rest as [|c' r]; cbn; eauto.
Qed.

(** below [10^18] the numeral is the decimal numeral and [BigInt] reads it back *)
Lemma BigInt_numeral_small p :
  Zpos p < 10 ^ 18 -> BigInt (BigNumber.numeral p) = Return (Zpos p).
Proof.
  intros Hp. unfold BigNumber.numeral.
  destruct (BigNumber.TO_EXP_POS <=? BigNumber.exponent10 p) eqn:E.
  - apply exponential_from_1e18 in E. lia.
  - apply BigInt_digits.
Qed.

(** from [10^18] on the numeral is in exponential notation, which [BigInt]
    refuses *)
Lemma BigInt_numeral_large p :
  10 ^ 18 <= Zpos p -> BigInt (BigNumber.numeral p) = Throw SyntaxError.
Proof.
  intros Hp. unfold BigNumber.numeral.
  apply exponential_from_1e18 in Hp. rewrite Hp.
  pose proof (digits_nonempty p) as Hne.
  pose proof (digits_all_decimal (Pos.to_uint p)) as Hall.
  fold (JsBigInt.digits p) in Hall.
  destruct (JsBigInt.digits p) as [|c rest]; [congruence|].
  simpl in Hall. apply andb_prop in Hall as [Hc _].
  cbn [BigNumber.coeffToString].
  destruct (toExponential_shape c (BigNumber.stripTrailingZeros rest)
              (BigNumber.exponent10 p)) as (x & tail & -> & Hx).
  unfold BigInt. now rewrite StringToBigInt_point_or_e.
Qed.

Lemma BigInt_toString_integer_small z :
  0 <= z < 10 ^ 18 -> BigInt (BigNumber.toString_integer z) = Return z.
Proof.
  destruct z as [|p|p]; intros Hz; [reflexivity| |lia].
  apply BigInt_numeral_small. lia.
Qed.

Lemma BigInt_toString_integer_large z :
  10 ^ 18 <= z -> BigInt (BigNumber.toString_integer z) = Throw SyntaxError.
Proof.
  destruct z as [|p|p]; intros Hz; [lia| |lia].
  now apply BigInt_numeral_large.
Qed.

(** so the conversion of a non-negative result to a bigint either gives the
    result itself or is refused: it never gives another number and never
    raises a [VaultError] *)
Lemma BigInt_toString_integer_cases z :
  0 <= z ->
  (z < 10 ^ 18 /\ BigInt (BigNumber.toString_integer z) = Return z)
  \/ (10 ^ 18 <= z /\ BigInt (BigNumber.toString_integer z) = Throw SyntaxError).
Proof.
  intros Hz. destruct (Z.lt_ge_cases z (10 ^ 18)).
  - left. split; auto. apply BigInt_toString_integer_small. lia.
  - right. split; auto. now apply BigInt_toString_integer_large.
Qed.

End NumeralOfBigNumber.

(** ** The arithmetic of the two conversions *)

Section ExchangeArithmetic.

Lemma lte_of_Z x y : BigNumber.lte (BigNumber.of_Z x) (BigNumber.of_Z y) = (x <=? y).
Proof.
  unfold BigNumber.lte, BigNumber.compare, Z.leb. cbn.
  rewrite !Z.mul_1_r. now destruct (x ?= y).
Qed.

Lemma lt_of_Z x y : BigNumber.lt (BigNumber.of_Z x) (BigNumber.of_Z y) = (x <? y).
Proof.
  unfold BigNumber.lt, BigNumber.compare, Z.ltb. cbn.
  rewrite !Z.mul_1_r. now destruct (x ?= y).
Qed.

Lemma pow_of_Z b n : BigNumber.pow (BigNumber.of_Z b) n = BigNumber.of_Z (b ^ Z.of_N n).
Proof. reflexivity. Qed.

Lemma multipliedBy_of_Z x y :
  BigNumber.multipliedBy (BigNumber.of_Z x) (BigNumber.of_Z y) = BigNumber.of_Z (x * y).
Proof. reflexivity. Qed.

Lemma div_of_Z x y :
  BigNumber.div (BigNumber.of_Z x) (BigNumber.of_Z y)
  = BigNumber.mk (Z.quot (x * 10 ^ 18) y) 18.
Proof.
  unfold BigNumber.div, BigNumber.DECIMAL_PLACES. cbn [BigNumber.coeff BigNumber.dp BigNumber.of_Z].
  now rewrite Z.pow_0_r, !Z.mul_1_r.
Qed.

Lemma ten_pow_pos (d : N) : 0 < 10 ^ Z.of_N d.
Proof. apply Z.pow_pos_nonneg; lia. Qed.

(** the pre-check [x.gt(MAX.div(y))] compares [x] with [floor(MAX / y)]:
    cutting the quotient at 18 decimals does not move an integer across it *)
Lemma gt_quotient x m y :
  0 <= m -> 0 < y ->
  BigNumber.gt (BigNumber.of_Z x) (BigNumber.div (BigNumber.of_Z m) (BigNumber.of_Z y))
  = (m / y <? x).
Proof.
  intros Hm Hy. rewrite div_of_Z.
  unfold BigNumber.gt, BigNumber.compare. cbn [BigNumber.coeff BigNumber.dp BigNumber.of_Z].
  rewrite Z.pow_0_r, Z.mul_1_r.
  rewrite Z.quot_div_nonneg by lia.
  change (10 ^ 18) with 1000000000000000000.
  pose proof (Z.mul_div_le (m * 1000000000000000000) y Hy) as Hq1.
  pose proof (Z.mul_succ_div_gt (m * 1000000000000000000) y Hy) as Hq2.
  pose proof (Z.mul_div_le m y Hy) as Hd1.
  pose proof (Z.mul_succ_div_gt m y Hy) as Hd2.
  set (q := m * 1000000000000000000 / y) in *.
  set (f := m / y) in *.
  destruct (Z.ltb_spec f x) as [Hlt|Hge];
    destruct (Z.compare_spec (x * 1000000000000000000) q) as [Hc|Hc|Hc];
    try reflexivity; exfalso; nia.
Qed.

(** the multiply-then-divide step: when the product fits in 64 bits the
    post-check passes and the integer part is the floor of the quotient *)
Lemma multiply_then_divide x y z :
  0 <= x * y <= MAX_U64 -> 0 < z ->
  let result :=
    BigNumber.div (BigNumber.multipliedBy (BigNumber.of_Z x) (BigNumber.of_Z y))
      (BigNumber.of_Z z) in
  BigNumber.gt result (BigNumber.of_Z MAX_U64) = false
  /\ BigNumber.integerValue result = x * y / z.
Proof.
  intros Hxy Hz result. subst result.
  rewrite multipliedBy_of_Z, div_of_Z.
  unfold BigNumber.gt, BigNumber.compare, BigNumber.integerValue.
  cbn [BigNumber.coeff BigNumber.dp BigNumber.of_Z].
  rewrite Z.pow_0_r, Z.mul_1_r.
  rewrite (Z.quot_div_nonneg (x * y * 10 ^ 18) z) by lia.
  assert (0 <= x * y * 10 ^ 18 / z) as Hnn by (apply Z.div_pos; lia).
  rewrite Z.quot_div_nonneg by lia.
  split.
  - assert (x * y * 10 ^ 18 / z <= MAX_U64 * 10 ^ 18) as Hle.
    { apply Z.div_le_upper_bound; [lia|]. nia. }
    destruct (Z.compare_spec (x * y * 10 ^ 18 / z) (MAX_U64 * 10 ^ 18));
      try reflexivity; lia.
  - rewrite Z.div_div by lia.
    now rewrite Z.div_mul_cancel_r by lia.
Qed.

(** [calculateOutputAmount] in closed form *)
Lemma calculateOutputAmount_eq r a d :
  calculateOutputAmount r a d =
    if r <=? 0 then Throw (VaultError DIVISION_BY_ZERO)
    else if a <? 0 then Throw (VaultError INVALID_PARAMETERS)
    else if MAX_U64 / r <? a then Throw (VaultError ARITHMETIC_OVERFLOW)
    else BigInt (BigNumber.toString_integer (r * a / 10 ^ Z.of_N d)).
Proof.
  unfold calculateOutputAmount.
  rewrite lte_of_Z, lt_of_Z, pow_of_Z.
  destruct (Z.leb_spec r 0) as [|Hr]; [reflexivity|].
  destruct (Z.ltb_spec a 0) as [|Ha]; [reflexivity|].
  rewrite gt_quotient by (unfold MAX_U64; lia).
  destruct (Z.ltb_spec (MAX_U64 / r) a) as [|Hfit]; [reflexivity|].
  assert (0 <= r * a <= MAX_U64) as Hprod.
  { pose proof (Z.mul_div_le MAX_U64 r Hr). split; nia. }
  destruct (multiply_then_divide r a (10 ^ Z.of_N d) Hprod (ten_pow_pos d)) as [-> ->].
  reflexivity.
Qed.

(** [calculateInputAmount] in closed form *)
Lemma calculateInputAmount_eq r o d :
  calculateInputAmount r o d =
    if r <=? 0 then Throw (VaultError DIVISION_BY_ZERO)
    else if o <? 0 then Throw (VaultError INVALID_PARAMETERS)
    else if MAX_U64 / 10 ^ Z.of_N d <? o then Throw (VaultError ARITHMETIC_OVERFLOW)
    else BigInt (BigNumber.toString_integer (o * 10 ^ Z.of_N d / r)).
Proof.
  unfold calculateInputAmount.
  rewrite lte_of_Z, lt_of_Z, pow_of_Z.
  destruct (Z.leb_spec r 0) as [|Hr]; [reflexivity|].
  destruct (Z.ltb_spec o 0) as [|Ho]; [reflexivity|].
  pose proof (ten_pow_pos d) as Hd.
  rewrite gt_quotient by (unfold MAX_U64; lia).
  destruct (Z.ltb_spec (MAX_U64 / 10 ^ Z.of_N d) o) as [|Hfit]; [reflexivity|].
  assert (0 <= o * 10 ^ Z.of_N d <= MAX_U64) as Hprod.
  { pose proof (Z.mul_div_le MAX_U64 (10 ^ Z.of_N d) Hd). split; nia. }
  destruct (multiply_then_divide o (10 ^ Z.of_N d) r Hprod Hr) as [-> ->].
  reflexivity.
Qed.

(** the quantity the conversion hands to [BigInt] is not negative *)
Lemma output_nonneg r a d : 0 < r -> 0 <= a -> 0 <= r * a / 10 ^ Z.of_N d.
Proof. intros. apply Z.div_pos; [nia|apply ten_pow_pos]. Qed.

(** when it returns, [calculateOutputAmount] returns the floor of the
    quotient *)
Lemma calculateOutputAmount_returns r a d v :
  calculateOutputAmount r a d = Return v ->
  0 < r /\ 0 <= a <= MAX_U64 / r /\ v = r * a / 10 ^ Z.of_N d /\ v < 10 ^ 18.
Proof.
  rewrite calculateOutputAmount_eq.
  destruct (Z.leb_spec r 0) as [|Hr]; [discriminate|].
  destruct (Z.ltb_spec a 0) as [|Ha]; [discriminate|].
  destruct (Z.ltb_spec (MAX_U64 / r) a) as [|Hfit]; [discriminate|].
  destruct (BigInt_toString_integer_cases _ (output_nonneg r a d Hr Ha))
    as [[Hs ->]|[Hl ->]]; intros [= <-].
  repeat split; auto.
Qed.

Lemma calculateInputAmount_returns r o d v :
  calculateInputAmount r o d = Return v ->
  0 < r /\ 0 <= o <= MAX_U64 / 10 ^ Z.of_N d /\ v = o * 10 ^ Z.of_N d / r /\ v < 10 ^ 18.
Proof.
  rewrite calculateInputAmount_eq.
  destruct (Z.leb_spec r 0) as [|Hr]; [discriminate|].
  destruct (Z.ltb_spec o 0) as [|Ho]; [discriminate|].
  destruct (Z.ltb_spec (MAX_U64 / 10 ^ Z.of_N d) o) as [|Hfit]; [discriminate|].
  assert (0 <= o * 10 ^ Z.of_N d / r) as Hnn.
  { apply Z.div_pos; [|lia]. pose proof (ten_pow_pos d). nia. }
  destruct (BigInt_toString_integer_cases _ Hnn) as [[Hs ->]|[Hl ->]]; intros [= <-].
  repeat split; auto.
Qed.

(** with the pre-check passed and a result below [10^18], it does return *)
Lemma calculateOutputAmount_small r a d :
  0 < r -> 0 <= a <= MAX_U64 / r -> r * a / 10 ^ Z.of_N d < 10 ^ 18 ->
  calculateOutputAmount r a d = Return (r * a / 10 ^ Z.of_N d).
Proof.
  intros Hr Ha Hs. rewrite calculateOutputAmount_eq.
  destruct (Z.leb_spec r 0); [lia|].
  destruct (Z.ltb_spec a 0); [lia|].
  destruct (Z.ltb_spec (MAX_U64 / r) a); [lia|].
  apply BigInt_toString_integer_small. split; auto. now apply output_nonneg.
Qed.

(** with the pre-check passed and a result of [10^18] or more, the
    conversion of the result to a bigint is refused *)
Lemma calculateOutputAmount_large r a d :
  0 < r -> 0 <= a <= MAX_U64 / r -> 10 ^ 18 <= r * a / 10 ^ Z.of_N d ->
  calculateOutputAmount r a d = Throw SyntaxError.
Proof.
  intros Hr Ha Hs. rewrite calculateOutputAmount_eq.
  destruct (Z.leb_spec r 0); [lia|].
  destruct (Z.ltb_spec a 0); [lia|].
  destruct (Z.ltb_spec (MAX_U64 / r) a); [lia|].
  now apply BigInt_toString_integer_large.
Qed.

End ExchangeArithmetic.

(** ** The exchange calculations against their specification *)

(** C1.  For a rate [r > 0], an input amount [a >= 0] and [d] in [0, 18]:
    whenever [calculateOutputAmount r a d] returns (does not raise), what it
    returns is exactly [floor(r * a / 10^d)], which here is also the quotient
    truncated towards zero; it never exceeds the exact quotient. *)
Theorem calculateOutputAmount_floor (r a : Z) (d : N) (v : Z) :
  0 < r -> 0 <= a -> (d <= 18)%N ->
  calculateOutputAmount r a d = Return v ->
  v = r * a / 10 ^ Z.of_N d
  /\ v = Z.quot (r * a) (10 ^ Z.of_N d)
  /\ v * 10 ^ Z.of_N d <= r * a < (v + 1) * 10 ^ Z.of_N d.
Proof.
  intros Hr Ha _ Hret.
  apply calculateOutputAmount_returns in Hret as (_ & _ & -> & _).
  pose proof (ten_pow_pos d) as Hd.
  assert (0 <= r * a) by nia.
  split; [reflexivity|]. split.
  - now rewrite Z.quot_div_nonneg by lia.
  - pose proof (Z.mul_div_le (r * a) _ Hd).
    pose proof (Z.mul_succ_div_gt (r * a) _ Hd).
    lia.
Qed.

(** the scenario of the specification: rate 2.0 applied to 1.0 unit *)
Lemma calculateOutputAmount_floor_witness :
  2000000000 = 2000000000 * 1000000000 / 10 ^ Z.of_N 9
  /\ 2000000000 = Z.quot (2000000000 * 1000000000) (10 ^ Z.of_N 9)
  /\ 2000000000 * 10 ^ Z.of_N 9 <= 2000000000 * 1000000000
     < (2000000000 + 1) * 10 ^ Z.of_N 9.
Proof.
  apply (calculateOutputAmount_floor 2000000000 1000000000 9 2000000000);
    [lia | lia | lia | vm_compute; reflexivity].
Defined.

(** C2.  For [r] and [a] in [0, 2^64 - 1] and [d] in [0, 18]:
    [calculateOutputAmount r a d] raises DIVISION_BY_ZERO exactly when
    [r = 0], and raises ARITHMETIC_OVERFLOW exactly when
    [a > floor(MAX_U64 / r)], the quotient being that of a rate [r <> 0]. *)
Theorem calculateOutputAmount_errors (r a : Z) (d : N) :
  0 <= r <= MAX_U64 -> 0 <= a <= MAX_U64 -> (d <= 18)%N ->
  (calculateOutputAmount r a d = Throw (VaultError DIVISION_BY_ZERO) <-> r = 0)
  /\ (calculateOutputAmount r a d = Throw (VaultError ARITHMETIC_OVERFLOW)
      <-> r <> 0 /\ a > MAX_U64 / r).
Proof.
  intros Hr Ha _. rewrite calculateOutputAmount_eq.
  destruct (Z.leb_spec r 0) as [Hr0|Hr0].
  - split; split; intros; try discriminate; try reflexivity; lia.
  - destruct (Z.ltb_spec a 0) as [|Ha0]; [lia|].
    destruct (Z.ltb_spec (MAX_U64 / r) a) as [Hov|Hfit].
    + split; split; intros; try discriminate; try reflexivity; lia.
    + destruct (BigInt_toString_integer_cases _ (output_nonneg r a d Hr0 Ha0))
        as [[_ ->]|[_ ->]];
        split; split; intros; try discriminate; lia.
Qed.

Lemma calculateOutputAmount_errors_witness :
  (calculateOutputAmount 2 MAX_U64 0 = Throw (VaultError DIVISION_BY_ZERO) <-> 2 = 0)
  /\ (calculateOutputAmount 2 MAX_U64 0 = Throw (VaultError ARITHMETIC_OVERFLOW)
      <-> 2 <> 0 /\ MAX_U64 > MAX_U64 / 2).
Proof.
  apply (calculateOutputAmount_errors 2 MAX_U64 0);
    [unfold MAX_U64; lia | unfold MAX_U64; lia | lia].
Defined.

(** C3, at the input where the code departs from it.  The rate [1], the
    amount [10^18] and [d = 0] satisfy [a <= floor(MAX_U64 / r)], and the
    result [10^18] fits in 64 bits; but with [EXPONENTIAL_AT: [-18, 18]] its
    numeral is ["1e+18"], which [BigInt] refuses: the call throws a
    SyntaxError instead of returning. *)
Theorem calculateOutputAmount_throws_at_1e18 :
  1000000000000000000 <= MAX_U64 / 1
  /\ 1 * 1000000000000000000 / 10 ^ Z.of_N 0 <= MAX_U64
  /\ BigNumber.toString_integer 1000000000000000000 = "1e+18"
  /\ calculateOutputAmount 1 1000000000000000000 0 = Throw SyntaxError.
Proof.
  repeat split; vm_compute; congruence.
Qed.

(** C4 as stated fails where the first conversion raises: at rate [2] and
    amount [MAX_U64] the overflow pre-check of [calculateOutputAmount]
    refuses the input, and the round trip yields no value. *)
Lemma roundTrip_raises_on_overflow :
  0 < 2 /\ 0 <= MAX_U64 <= MAX_U64 /\ (0 <= 18)%N
  /\ roundTrip 2 MAX_U64 0 = Throw (VaultError ARITHMETIC_OVERFLOW)
  /\ ~ (exists v, roundTrip 2 MAX_U64 0 = Return v /\ v <= MAX_U64).
Proof.
  assert (roundTrip 2 MAX_U64 0 = Throw (VaultError ARITHMETIC_OVERFLOW)) as E
    by (vm_compute; reflexivity).
  repeat split; try (unfold MAX_U64; lia); auto.
  intros (v & Hv & _). rewrite E in Hv. discriminate.
Qed.

(** C4, amended.  For [r > 0], [a] in [0, 2^64 - 1] and [d] in [0, 18]:
    if [a > floor(MAX_U64 / r)] the round trip raises ARITHMETIC_OVERFLOW;
    otherwise it raises no [VaultError] at all, and any value it yields lies
    in [0, a]. *)
Theorem roundTrip_le (r a : Z) (d : N) :
  0 < r -> 0 <= a <= MAX_U64 -> (d <= 18)%N ->
  (MAX_U64 / r < a -> roundTrip r a d = Throw (VaultError ARITHMETIC_OVERFLOW))
  /\ (a <= MAX_U64 / r ->
      (forall code, roundTrip r a d <> Throw (VaultError code))
      /\ (forall v, roundTrip r a d = Return v -> 0 <= v <= a)).
Proof.
  intros Hr Ha _. unfold roundTrip. split.
  - intros Hov. rewrite calculateOutputAmount_eq.
    destruct (Z.leb_spec r 0); [lia|].
    destruct (Z.ltb_spec a 0); [lia|].
    destruct (Z.ltb_spec (MAX_U64 / r) a); [reflexivity|lia].
  - intros Hfit.
    pose proof (ten_pow_pos d) as Hd.
    pose proof (output_nonneg r a d Hr (proj1 Ha)) as Ho.
    pose proof (Z.mul_div_le (r * a) _ Hd) as Hfl.
    pose proof (Z.mul_div_le MAX_U64 r Hr) as Hmr.
    set (o := r * a / 10 ^ Z.of_N d) in *.
    assert (o * 10 ^ Z.of_N d <= r * a) as Hback by lia.
    assert (r * a <= MAX_U64) as Hprod by nia.
    assert (calculateOutputAmount r a d = Return o
            \/ calculateOutputAmount r a d = Throw SyntaxError) as Hout.
    { destruct (Z.lt_ge_cases o (10 ^ 18)).
      - left. now apply calculateOutputAmount_small.
      - right. now apply calculateOutputAmount_large. }
    destruct Hout as [-> | ->]; cbn [bindO]; [|split; intros; discriminate].
    rewrite calculateInputAmount_eq.
    destruct (Z.leb_spec r 0); [lia|].
    destruct (Z.ltb_spec o 0); [lia|].
    destruct (Z.ltb_spec (MAX_U64 / 10 ^ Z.of_N d) o) as [Hbig|_].
    { exfalso. pose proof (Z.mul_succ_div_gt MAX_U64 _ Hd). nia. }
    assert (0 <= o * 10 ^ Z.of_N d / r <= a) as Hin.
    { split.
      - apply Z.div_pos; nia.
      - apply Z.div_le_upper_bound; lia. }
    destruct (BigInt_toString_integer_cases (o * 10 ^ Z.of_N d / r) (proj1 Hin))
      as [[_ ->]|[_ ->]]; split; intros; try discriminate.
    match goal with H : Return _ = Return _ |- _ => injection H as <- end.
    exact Hin.
Qed.

Lemma roundTrip_le_witness : 0 <= 10 <= 10.
Proof.
  refine (proj2 (proj2 (roundTrip_le 3 10 1 _ _ _) _) 10 _);
    [lia | unfold MAX_U64; lia | lia | vm_compute; congruence | vm_compute; reflexivity].
Defined.

(** ** Address validation and normalization *)

Section Addresses.

Lemma isHexDigit_spec c :
  JsString.isHexDigit c = true
  <-> In c (list_ascii_of_string "0123456789abcdefABCDEF").
Proof.
  assert (JsString.isHexDigit c
          = existsb (Ascii.eqb c) (list_ascii_of_string "0123456789abcdefABCDEF")) as ->
    by (destruct c as [[|] [|] [|] [|] [|] [|] [|] [|]]; reflexivity).
  rewrite existsb_exists. split.
  - intros (x & Hin & Heq). apply Ascii.eqb_eq in Heq. now subst.
  - intros Hin. exists c. split; auto. apply Ascii.eqb_refl.
Qed.

Lemma all_isHexDigit h : JsString.all JsString.isHexDigit h = true <-> HexDigits h.
Proof.
  unfold HexDigits. induction h as [|c h IH]; cbn [JsString.all list_ascii_of_string].
  - split; auto. intros _ c [].
  - rewrite andb_true_iff, IH, isHexDigit_spec. split.
    + intros [Hc Hh] x [<-|Hx]; auto.
    + intros Hall. split; [apply Hall; now left|].
      intros x Hx. apply Hall. now right.
Qed.

Lemma length_append s t : String.length (s ++ t) = (String.length s + String.length t)%nat.
Proof. induction s; simpl; auto. Qed.

Lemma length_repeat c n : String.length (JsString.repeat c n) = n.
Proof. induction n; simpl; auto. Qed.

Lemma HexDigits_padded n h : HexDigits h -> HexDigits (JsString.repeat "0" n ++ h).
Proof.
  intros Hh. induction n as [|n IH]; [exact Hh|].
  intros c [<-|Hc]; [now left|]. now apply IH.
Qed.

Lemma startsWith_0x_intro h : JsString.startsWith ("0x" ++ h) "0x" = true.
Proof.
  unfold JsString.startsWith. simpl.
  destruct (ascii_dec "0" "0"); [|congruence].
  destruct (ascii_dec "x" "x"); [|congruence].
  now destruct h.
Qed.

Lemma isValidSuiAddress_0x h :
  isValidSuiAddress ("0x" ++ h)
  = negb (JsString.isEmpty h) && JsString.all JsString.isHexDigit h
    && (String.length h <=? 64)%nat.
Proof.
  unfold isValidSuiAddress. rewrite startsWith_0x_intro.
  change (JsString.slice 2 ("0x" ++ h)) with h.
  change (JsString.isEmpty ("0x" ++ h)) with false.
  cbv iota. change (negb true) with false. cbv iota.
  unfold JsString.test_hex_plus.
  destruct h as [|c h]; [reflexivity|].
  change (JsString.isEmpty (String c h)) with false.
  change (negb false) with true.
  remember (String.length (String c h)) as n eqn:En.
  destruct (JsString.all JsString.isHexDigit (String c h)); [|reflexivity].
  cbn [negb andb].
  assert ((n =? 0)%nat = false) as -> by (apply Nat.eqb_neq; subst n; simpl; lia).
  cbn [orb]. rewrite Nat.ltb_antisym. now destruct (n <=? 64)%nat.
Qed.

Lemma startsWith_0x s :
  JsString.startsWith s "0x" = true -> exists h, s = "0x" ++ h.
Proof.
  unfold JsString.startsWith.
  destruct s as [|c1 [|c2 h]].
  - discriminate.
  - unfold prefix. destruct (ascii_dec "0" c1); discriminate.
  - unfold prefix. fold prefix.
    destruct (ascii_dec "0" c1) as [<-|]; [|discriminate].
    destruct (ascii_dec "x" c2) as [<-|]; [|discriminate].
    intros _. now exists h.
Qed.

Lemma isValidSuiAddress_shape s : isValidSuiAddress s = true <-> AddressShape s.
Proof.
  unfold AddressShape. split.
  - intros Hv.
    assert (exists h, s = "0x" ++ h) as [h ->].
    { apply startsWith_0x. unfold isValidSuiAddress in Hv.
      destruct (JsString.isEmpty s); [discriminate|].
      destruct (JsString.startsWith s "0x"); [reflexivity|discriminate]. }
    rewrite isValidSuiAddress_0x in Hv.
    apply andb_prop in Hv as [Hv Hlen]. apply andb_prop in Hv as [Hne Hhex].
    exists h. split; [reflexivity|]. split.
    + apply Nat.leb_le in Hlen. destruct h; [discriminate|]. simpl in *. lia.
    + now apply all_isHexDigit.
  - intros (h & -> & Hlen & Hhex).
    rewrite isValidSuiAddress_0x.
    apply all_isHexDigit in Hhex. rewrite Hhex.
    destruct h; [simpl in Hlen; lia|].
    cbn [JsString.isEmpty negb andb]. apply Nat.leb_le. lia.
Qed.

Lemma validateSuiAddress_0x h :
  isValidSuiAddress ("0x" ++ h) = true ->
  validateSuiAddress ("0x" ++ h)
  = Return ("0x" ++ JsString.repeat "0" (64 - String.length h) ++ h).
Proof.
  intros Hv. unfold validateSuiAddress. now rewrite Hv.
Qed.

End Addresses.

(** C8.  A string is accepted by the address validation exactly when it is
    [0x] followed by 1 to 64 hexadecimal digits; an accepted address is
    normalized by padding its digits on the left with zeros to exactly 64
    digits, and a rejected one has no normal form.  So ["0x1"] and [0x] with
    64 digits are accepted, a missing prefix, a character that is no
    hexadecimal digit and 65 digits are rejected, and ["0x1"] is normalized
    to [0x], 63 zeros and [1]. *)
Theorem address_validation :
  (forall s, isValidSuiAddress s = true <-> AddressShape s)
  /\ (forall h, (1 <= String.length h <= 64)%nat -> HexDigits h ->
        let padded := JsString.repeat "0" (64 - String.length h) ++ h in
        validateSuiAddress ("0x" ++ h) = Return ("0x" ++ padded)
        /\ String.length padded = 64%nat
        /\ HexDigits padded)
  /\ (forall s, isValidSuiAddress s = false ->
        exists message, validateSuiAddress s = Throw (Error message))
  /\ isValidSuiAddress "0x1" = true
  /\ isValidSuiAddress Sample.coinId = true
  /\ isValidSuiAddress "1" = false
  /\ isValidSuiAddress "0x12g" = false
  /\ isValidSuiAddress ("0x" ++ JsString.repeat "a" 65) = false
  /\ validateSuiAddress "0x1"
     = Return "0x0000000000000000000000000000000000000000000000000000000000000001".
Proof.
  split; [exact isValidSuiAddress_shape|].
  split.
  { intros h Hlen Hhex padded. subst padded.
    assert (isValidSuiAddress ("0x" ++ h) = true) as Hv
      by (apply isValidSuiAddress_shape; exists h; auto).
    split; [now apply validateSuiAddress_0x|]. split.
    - rewrite length_append, length_repeat. lia.
    - now apply HexDigits_padded. }
  split.
  { intros s Hs. unfold validateSuiAddress. rewrite Hs. cbn. eauto. }
  repeat split; reflexivity.
Qed.

Lemma address_validation_witness :
  validateSuiAddress ("0x" ++ "1")
  = Return ("0x" ++ JsString.repeat "0" (64 - String.length "1") ++ "1")
  /\ String.length (JsString.repeat "0" (64 - String.length "1") ++ "1") = 64%nat
  /\ HexDigits (JsString.repeat "0" (64 - String.length "1") ++ "1").
Proof.
  apply (proj1 (proj2 address_validation) "1").
  - simpl. lia.
  - intros c [<-|[]]. simpl. tauto.
Defined.

(** ** Composite validation of a vault configuration *)

Section CompositeValidation.

Context `{Host}.

Lemma firstFailure_stops passed e rest :
  Forall (fun o => o = Return tt) passed ->
  firstFailure (passed ++ Throw e :: rest) = Throw e.
Proof.
  induction 1 as [|o passed Ho _ IH]; [reflexivity|].
  subst o. exact IH.
Qed.

Lemma firstFailure_passes checks :
  Forall (fun o => o = Return tt) checks -> firstFailure checks = Return tt.
Proof.
  induction 1 as [|o checks Ho _ IH]; [reflexivity|].
  subst o. exact IH.
Qed.

Lemma check_Return {A} (o : Outcome A) :
  check o = Return tt <-> exists a, o = Return a.
Proof.
  destruct o; cbn; split; eauto; try discriminate.
  intros [? [=]].
Qed.

Lemma validateRate_Return rate z :
  validateRate rate = Return z
  <-> BigInt (Numeric_toString rate) = Return z /\ 0 < z.
Proof.
  unfold validateRate, isValidRate.
  destruct (BigInt (Numeric_toString rate)) as [b|e]; cbn.
  - destruct (Z.ltb_spec 0 b); cbn.
    + destruct (Z.leb_spec b 0); [lia|].
      split; [intros [= <-]; auto|intros [[= <-] _]; auto].
    + split; [discriminate|intros [[= <-] ?]; lia].
  - split; [discriminate|intros [[=] _]].
Qed.

Lemma validateRateDecimals_Return decimals v :
  validateRateDecimals decimals = Return v <-> v = decimals /\ 0 <= decimals <= 18.
Proof.
  unfold validateRateDecimals.
  destruct (Z.ltb_spec decimals 0); cbn;
    [split; [discriminate|lia]|].
  destruct (Z.ltb_spec 18 decimals);
    (split; [try discriminate; intros [= <-]; lia | intros [-> ?]; try lia; reflexivity]).
Qed.

Lemma validateStringLength_Return value min max field v :
  validateStringLength value min max field = Return v
  <-> v = value /\ min <= Z.of_nat (String.length value) <= max.
Proof.
  unfold validateStringLength.
  destruct (Z.ltb_spec (Z.of_nat (String.length value)) min);
    [split; [discriminate|lia]|].
  destruct (Z.ltb_spec max (Z.of_nat (String.length value))).
  - split; [discriminate|lia].
  - split.
    + intros [= <-]. split; [reflexivity|lia].
    + now intros [-> _].
Qed.

Lemma validateCoinType_Return coinType v :
  validateCoinType coinType = Return v <-> v = coinType /\ isValidCoinType coinType = true.
Proof.
  unfold validateCoinType. destruct (isValidCoinType coinType); cbn.
  - split; [intros [= <-]; auto|intros [-> _]; auto].
  - split; [discriminate|intros [_ [=]]].
Qed.

Lemma validateVaultConfig_is_firstFailure c :
  validateVaultConfig c = firstFailure (vaultConfigChecks c).
Proof.
  unfold validateVaultConfig, vaultConfigChecks, rateCheck, rateDecimalsCheck,
    symbolCheck, nameCheck, descriptionCheck, inputTypeCheck, outputTypeCheck,
    iconUrlCheck, check.
  destruct (validateRate _); cbn; [|reflexivity].
  destruct (validateRateDecimals _); cbn; [|reflexivity].
  destruct (validateStringLength (VaultConfig.symbol c) _ _ _); cbn; [|reflexivity].
  destruct (validateStringLength (VaultConfig.name c) _ _ _); cbn; [|reflexivity].
  destruct (validateStringLength (VaultConfig.description c) _ _ _); cbn; [|reflexivity].
  destruct (validateCoinType (VaultConfig.inputCoinType c)); cbn; [|reflexivity].
  destruct (validateCoinType (VaultConfig.outputCoinType c)); cbn; [|reflexivity].
  destruct (truthy (VaultConfig.iconUrl c)); [|reflexivity].
  destruct (validateUrl _); reflexivity.
Qed.

End CompositeValidation.

(** C9.  [validateVaultConfig] is the run of eight checks in the fixed order
    rate, rate decimals, symbol, name, description, input type, output type,
    icon URL, up to the first that fails: when a check fails after all the
    earlier ones have passed, the caller receives that check's error and
    nothing of the later ones; when all pass it returns.  The symbol, name
    and description checks are the length bounds 1 to 32, 1 to 256 and 1 to
    1000, the rate-decimals check is the range 0 to 18, the rate check asks
    for a positive integer, and the icon URL is checked only when present
    and not empty. *)
Theorem validateVaultConfig_first_failure `{Host} (c : VaultConfig.t) :
  validateVaultConfig c = firstFailure (vaultConfigChecks c)
  /\ (forall passed e rest,
        vaultConfigChecks c = (passed ++ Throw e :: rest)%list ->
        Forall (fun o => o = Return tt) passed ->
        validateVaultConfig c = Throw e)
  /\ (Forall (fun o => o = Return tt) (vaultConfigChecks c) ->
        validateVaultConfig c = Return tt)
  /\ (rateCheck c = Return tt
      <-> exists z, BigInt (Numeric_toString (VaultConfig.rate c)) = Return z /\ 0 < z)
  /\ (rateDecimalsCheck c = Return tt <-> 0 <= VaultConfig.rateDecimals c <= 18)
  /\ (symbolCheck c = Return tt
      <-> 1 <= Z.of_nat (String.length (VaultConfig.symbol c)) <= 32)
  /\ (nameCheck c = Return tt
      <-> 1 <= Z.of_nat (String.length (VaultConfig.name c)) <= 256)
  /\ (descriptionCheck c = Return tt
      <-> 1 <= Z.of_nat (String.length (VaultConfig.description c)) <= 1000)
  /\ (inputTypeCheck c = Return tt <-> isValidCoinType (VaultConfig.inputCoinType c) = true)
  /\ (outputTypeCheck c = Return tt <-> isValidCoinType (VaultConfig.outputCoinType c) = true)
  /\ (iconUrlCheck c = Return tt
      <-> forall url, VaultConfig.iconUrl c = Some url -> url <> "" -> URL_parses url = true).
Proof.
  split; [apply validateVaultConfig_is_firstFailure|].
  split.
  { intros passed e rest Hchecks Hpassed.
    rewrite validateVaultConfig_is_firstFailure, Hchecks.
    now apply firstFailure_stops. }
  split.
  { intros Hall. rewrite validateVaultConfig_is_firstFailure.
    now apply firstFailure_passes. }
  unfold rateCheck, rateDecimalsCheck, symbolCheck, nameCheck, descriptionCheck,
    inputTypeCheck, outputTypeCheck, iconUrlCheck.
  rewrite !check_Return.
  repeat match goal with |- _ /\ _ => split end.
  - split; intros [z Hz]; exists z; now apply validateRate_Return.
  - split.
    + intros [v Hv]. now apply validateRateDecimals_Return in Hv.
    + intros Hv. eexists. apply validateRateDecimals_Return. eauto.
  - split.
    + intros [v Hv]. now apply validateStringLength_Return in Hv.
    + intros Hv. eexists. apply validateStringLength_Return. eauto.
  - split.
    + intros [v Hv]. now apply validateStringLength_Return in Hv.
    + intros Hv. eexists. apply validateStringLength_Return. eauto.
  - split.
    + intros [v Hv]. now apply validateStringLength_Return in Hv.
    + intros Hv. eexists. apply validateStringLength_Return. eauto.
  - split.
    + intros [v Hv]. now apply validateCoinType_Return in Hv.
    + intros Hv. eexists. apply validateCoinType_Return. eauto.
  - split.
    + intros [v Hv]. now apply validateCoinType_Return in Hv.
    + intros Hv. eexists. apply validateCoinType_Return. eauto.
  - split.
    + intros Hc url Hurl Hne. rewrite Hurl in Hc.
      destruct url as [|a url]; [congruence|]. cbn [truthy JsString.isEmpty] in Hc.
      apply check_Return in Hc as [v Hv]. unfold validateUrl, isValidUrl in Hv.
      destruct (URL_parses (String a url)); [reflexivity|discriminate].
    + intros Hc. destruct (VaultConfig.iconUrl c) as [url|]; [|reflexivity].
      destruct url as [|a url]; [reflexivity|]. cbn [truthy JsString.isEmpty].
      apply check_Return. unfold validateUrl, isValidUrl.
      rewrite (Hc (String a url)); [cbn; eauto|reflexivity|discriminate].
Qed.

(** a configuration with two faults is refused for the first of them *)
Lemma validateVaultConfig_first_failure_witness :
  @validateVaultConfig sampleHost Sample.configTwoFaults
  = Throw (Error "Symbol must be at most 32 characters long").
Proof.
  apply (proj1 (proj2 (@validateVaultConfig_first_failure sampleHost Sample.configTwoFaults))
           [Return tt; Return tt]
           (Error "Symbol must be at most 32 characters long")
           [Return tt; Throw (Error "Description must be at most 1000 characters long");
            Return tt; Return tt; Return tt]).
  - vm_compute. reflexivity.
  - repeat constructor.
Defined.

(** ** The call builders *)

Section Builders.

Lemma skipn_length_app {A} (l k : list A) : List.skipn (List.length l) (l ++ k) = k.
Proof. induction l; simpl; auto. Qed.

Lemma appended_app {A} (b : Build A) tx calls o :
  b tx = ((tx ++ calls)%list, o) -> appended b tx = calls.
Proof. intros E. unfold appended. rewrite E. apply skipn_length_app. Qed.

Lemma utf8_bytes_valid s :
  forallb (fun b => (0 <=? b) && (b <=? 255)) (JsString.utf8 s) = true.
Proof.
  induction s as [|c s IH]; [reflexivity|].
  cbn [JsString.utf8]. rewrite forallb_app, IH, andb_true_r.
  unfold JsString.utf8_of_unit, JsString.code.
  pose proof (N_ascii_bounded c) as Hc.
  set (n := Z.of_N (N_of_ascii c)).
  assert (0 <= n < 256) as Hn by (subst n; lia).
  clearbody n. clear Hc IH.
  destruct (Z.ltb_spec n 128); cbn [forallb]; rewrite ?andb_true_r.
  - apply andb_true_intro. split; [apply Z.leb_le|apply Z.leb_le]; lia.
  - pose proof (Z.div_pos n 64 ltac:(lia) ltac:(lia)).
    assert (n / 64 < 4) by (apply Z.div_lt_upper_bound; lia).
    pose proof (Z.mod_pos_bound n 64 ltac:(lia)).
    repeat (apply andb_true_intro; split); apply Z.leb_le; lia.
Qed.

Lemma pure_vector_u8_utf8 s :
  pure_vector_u8 (JsString.utf8 s) = Return (Pure (VectorU8 (JsString.utf8 s))).
Proof. unfold pure_vector_u8. now rewrite utf8_bytes_valid. Qed.

(** the u64 encoder on a numeral that [BigInt] reads as [z] *)
Lemma pure_u64_of s z :
  BigInt s = Return z ->
  pure_u64 s = if (z <? 0) || (MAX_U64 <? z) then Throw TypeError
               else Return (Pure (U64 z)).
Proof. intros E. unfold pure_u64. now rewrite E. Qed.

(** the create-vault build in closed form: the auxiliary calls are appended
    first; then the arguments of the main call are encoded, and the main
    call is appended only if none of the encoders throws *)
Lemma buildCreateVaultTx_eq packageId params tx :
  let n := List.length tx in
  let iconUrl := CreateVaultParams.iconUrl params in
  buildCreateVaultTx packageId params tx =
    match encodeCreateVaultArguments params (optionUrlHandle n iconUrl) with
    | Return arguments =>
        ((tx ++ auxiliaryCalls n iconUrl
             ++ [MoveCall (target_of packageId VAULT_FUNCTIONS.CREATE_VAULT)
                   [CreateVaultParams.inputCoinType params;
                    CreateVaultParams.outputCoinType params]
                   arguments])%list,
         Return tt)
    | Throw e => ((tx ++ auxiliaryCalls n iconUrl)%list, Throw e)
    end.
Proof.
  intros n iconUrl. subst n iconUrl.
  unfold buildCreateVaultTx, encodeCreateVaultArguments, auxiliaryCalls, optionUrlHandle.
  unfold bindB, lift, ret, moveCall, add, first.
  destruct (truthy (CreateVaultParams.iconUrl params)) as [url|].
  - rewrite !List.length_app. cbn [List.length]. rewrite Nat.add_1_r.
    rewrite <- !app_assoc. cbn [app].
    destruct (pure_u64 _); cbn [bindO]; [|reflexivity].
    destruct (pure_u8 _); cbn [bindO]; [|reflexivity].
    destruct (pure_vector_u8 (JsString.utf8 (CreateVaultParams.symbol params)));
      cbn [bindO]; [|reflexivity].
    destruct (pure_vector_u8 (JsString.utf8 (CreateVaultParams.name params)));
      cbn [bindO]; [|reflexivity].
    destruct (pure_vector_u8 (JsString.utf8 (CreateVaultParams.description params)));
      cbn [bindO]; [|reflexivity].
    rewrite <- !app_assoc. reflexivity.
  - destruct (pure_u64 _); cbn [bindO]; [|reflexivity].
    destruct (pure_u8 _); cbn [bindO]; [|reflexivity].
    destruct (pure_vector_u8 (JsString.utf8 (CreateVaultParams.symbol params)));
      cbn [bindO]; [|reflexivity].
    destruct (pure_vector_u8 (JsString.utf8 (CreateVaultParams.name params)));
      cbn [bindO]; [|reflexivity].
    destruct (pure_vector_u8 (JsString.utf8 (CreateVaultParams.description params)));
      cbn [bindO]; [|reflexivity].
    rewrite <- !app_assoc. reflexivity.
Qed.

(** the encoding of the arguments of a configuration that passes
    [validateVaultConfig]: only a rate above [MAX_U64] is refused *)
Lemma encodeCreateVaultArguments_valid `{Host} params optionUrl :
  validateVaultConfig (configOf params) = Return tt ->
  exists rate,
    validateRate (CreateVaultParams.rate params) = Return rate
    /\ encodeCreateVaultArguments params optionUrl =
         if MAX_U64 <? rate then Throw TypeError
         else Return [Pure (U64 rate);
                      objectOrHandle (CreateVaultParams.outputCoinTreasury params);
                      Pure (U8 (CreateVaultParams.rateDecimals params));
                      Pure (VectorU8 (JsString.utf8 (CreateVaultParams.symbol params)));
                      Pure (VectorU8 (JsString.utf8 (CreateVaultParams.name params)));
                      Pure (VectorU8 (JsString.utf8 (CreateVaultParams.description params)));
                      optionUrl].
Proof.
  intros Hvalid. unfold validateVaultConfig, configOf in Hvalid.
  cbn [VaultConfig.rate VaultConfig.rateDecimals] in Hvalid.
  destruct (validateRate (CreateVaultParams.rate params)) as [rate|] eqn:Hrate;
    cbn [bindO] in Hvalid; [|discriminate].
  destruct (validateRateDecimals (CreateVaultParams.rateDecimals params)) as [dec|] eqn:Hdec;
    cbn [bindO] in Hvalid; [|discriminate].
  clear Hvalid.
  exists rate. split; [reflexivity|].
  apply validateRate_Return in Hrate as [Hbig Hpos].
  apply validateRateDecimals_Return in Hdec as [_ Hrange].
  unfold encodeCreateVaultArguments.
  rewrite (pure_u64_of _ _ Hbig).
  destruct (Z.ltb_spec rate 0); [lia|]. cbn [orb].
  destruct (MAX_U64 <? rate); cbn [bindO]; [reflexivity|].
  unfold pure_u8.
  destruct (Z.ltb_spec (CreateVaultParams.rateDecimals params) 0); [lia|].
  destruct (Z.ltb_spec 255 (CreateVaultParams.rateDecimals params)); [lia|].
  cbn [orb bindO]. rewrite !pure_vector_u8_utf8. reflexivity.
Qed.

(** the builders of a single call are all-or-nothing *)
Lemma buildMintTx_atomic packageId params : atomic (buildMintTx packageId params).
Proof. intros tx. right. cbv [buildMintTx bindB ret moveCall add]. eauto. Qed.

Lemma buildRedeemTx_atomic packageId params : atomic (buildRedeemTx packageId params).
Proof. intros tx. right. cbv [buildRedeemTx bindB ret moveCall add]. eauto. Qed.

Lemma buildDepositTx_atomic packageId params : atomic (buildDepositTx packageId params).
Proof. intros tx. right. cbv [buildDepositTx bindB ret moveCall add]. eauto. Qed.

Lemma buildWithdrawTx_atomic packageId params : atomic (buildWithdrawTx packageId params).
Proof.
  intros tx. cbv [buildWithdrawTx bindB ret lift moveCall add].
  destruct (pure_u64 _); eauto.
Qed.

Lemma buildSetRateTx_atomic packageId params : atomic (buildSetRateTx packageId params).
Proof.
  intros tx. cbv [buildSetRateTx bindB ret lift moveCall add].
  destruct (pure_u64 _); eauto.
Qed.

(** the create-vault build is all-or-nothing on the parameters whose
    arguments the encoders accept, and on no others *)
Lemma buildCreateVaultTx_throws_late packageId params tx e :
  encodeCreateVaultArguments params
    (optionUrlHandle (List.length tx) (CreateVaultParams.iconUrl params)) = Throw e ->
  exists call calls,
    buildCreateVaultTx packageId params tx = ((tx ++ call :: calls)%list, Throw e).
Proof.
  intros E. rewrite buildCreateVaultTx_eq. cbv zeta. rewrite E.
  unfold auxiliaryCalls. destruct (truthy _); eauto.
Qed.

End Builders.

(** ** The create-vault build *)

Section CreateVault.

Context `{Host}.

Lemma truthy_idempotent o : truthy (truthy o) = truthy o.
Proof. destruct o as [[|c s]|]; reflexivity. Qed.

Lemma truthy_nonempty url : url <> "" -> truthy (Some url) = Some url.
Proof. destruct url; [congruence|reflexivity]. Qed.

(** the build on a configuration that passes [validateVaultConfig], with
    [rate] the value of its rate *)
Lemma buildCreateVaultTx_valid packageId params tx rate :
  validateVaultConfig (configOf params) = Return tt ->
  validateRate (CreateVaultParams.rate params) = Return rate ->
  let n := List.length tx in
  let iconUrl := CreateVaultParams.iconUrl params in
  buildCreateVaultTx packageId params tx =
    if MAX_U64 <? rate
    then ((tx ++ auxiliaryCalls n iconUrl)%list, Throw TypeError)
    else ((tx ++ auxiliaryCalls n iconUrl
              ++ [createVaultCall packageId params rate (optionUrlHandle n iconUrl)])%list,
          Return tt).
Proof.
  intros Hvalid Hrate n iconUrl. rewrite buildCreateVaultTx_eq. cbv zeta.
  destruct (encodeCreateVaultArguments_valid params
              (optionUrlHandle (List.length tx) (CreateVaultParams.iconUrl params)) Hvalid)
    as (rate' & Hrate' & ->).
  assert (rate' = rate) as -> by congruence.
  now destruct (MAX_U64 <? rate).
Qed.

(** [createVault] on a configuration whose rate is above [MAX_U64]: the
    validation passes, the auxiliary calls are appended, and the encoding of
    the rate throws *)
Lemma createVault_rate_above packageId config treasury tx rate :
  validateVaultConfig config = Return tt ->
  validateRate (VaultConfig.rate config) = Return rate ->
  MAX_U64 < rate ->
  createVault packageId config treasury tx
  = ((tx ++ auxiliaryCalls (List.length tx) (VaultConfig.iconUrl config))%list,
     Throw TypeError).
Proof.
  intros Hvalid Hrate Habove. unfold createVault, bindB, lift. rewrite Hvalid.
  assert (validateVaultConfig
            (configOf (CreateVaultParams.mk (VaultConfig.rate config) treasury
               (VaultConfig.rateDecimals config) (VaultConfig.symbol config)
               (VaultConfig.name config) (VaultConfig.description config)
               (truthy (VaultConfig.iconUrl config))
               (VaultConfig.inputCoinType config) (VaultConfig.outputCoinType config)))
          = Return tt) as Hvalid'.
  { revert Hvalid. unfold validateVaultConfig, configOf. cbn.
    now rewrite truthy_idempotent. }
  rewrite (buildCreateVaultTx_valid _ _ _ rate Hvalid' Hrate). cbv zeta.
  cbn [CreateVaultParams.iconUrl].
  destruct (Z.ltb_spec MAX_U64 rate); [|lia].
  unfold auxiliaryCalls. now rewrite truthy_idempotent.
Qed.

End CreateVault.

(** C5, at the input where the code departs from it.  The configuration of
    the quick start with the rate [2^64] passes [validateVaultConfig], whose
    rate check has no upper bound.  [buildCreateVaultTx] then appends the
    [0x1::option::none] call and, evaluating the arguments of the main call,
    throws in the u64 encoder: one call of its two is left in the
    transaction.  (On the quick-start configuration itself both calls are
    appended.) *)
Theorem createVault_partial_append :
  @validateVaultConfig sampleHost Sample.configRateAbove = Return tt
  /\ @createVault sampleHost Sample.packageId Sample.configRateAbove Sample.treasury []
     = ([optionNoneCall], Throw TypeError)
  /\ buildCreateVaultTx Sample.packageId (Sample.paramsOf Sample.configRateAbove) []
     = ([optionNoneCall], Throw TypeError)
  /\ buildCreateVaultTx Sample.packageId (Sample.paramsOf Sample.config) []
     = ([optionNoneCall;
         createVaultCall Sample.packageId (Sample.paramsOf Sample.config) 2000000000
           (NestedResult 0 0)],
        Return tt)
  /\ ~ atomic (buildCreateVaultTx Sample.packageId (Sample.paramsOf Sample.configRateAbove)).
Proof.
  assert (buildCreateVaultTx Sample.packageId (Sample.paramsOf Sample.configRateAbove) []
          = ([optionNoneCall], Throw TypeError)) as E by (vm_compute; reflexivity).
  repeat match goal with |- _ /\ _ => split end;
    try exact E; try (vm_compute; reflexivity).
  intros Hatomic. destruct (Hatomic []) as [(e & He)|(calls & v & Hv)];
    rewrite E in *; discriminate.
Qed.

(** The calls of a create-vault build on a configuration that passes
    [validateVaultConfig], with [rate] the value of its rate and [n] the
    number of calls already in the transaction.  With [iconUrl] absent, or
    the empty string, the one auxiliary call is [0x1::option::none]; with a
    non-empty [iconUrl] the two auxiliary calls are [0x2::url::new_unsafe]
    on the URL and [0x1::option::some] on its result.  With a rate within
    [MAX_U64] the main call follows, taking the result of the last auxiliary
    call as its last argument, and nothing else is appended; with a rate
    above [MAX_U64] the build throws after the auxiliary calls and the main
    call is not appended. *)
Lemma buildCreateVaultTx_auxiliary_calls `{Host} (packageId : string)
  (params : CreateVaultParams.t) (tx : Transaction) (rate : Z) :
  validateVaultConfig (configOf params) = Return tt ->
  validateRate (CreateVaultParams.rate params) = Return rate ->
  let n := List.length tx in
  let build := buildCreateVaultTx packageId params in
  (CreateVaultParams.iconUrl params = None \/ CreateVaultParams.iconUrl params = Some "" ->
     let main := createVaultCall packageId params rate (NestedResult n 0) in
     (rate <= MAX_U64 -> build tx = ((tx ++ [optionNoneCall; main])%list, Return tt))
     /\ (MAX_U64 < rate -> build tx = ((tx ++ [optionNoneCall])%list, Throw TypeError)))
  /\ (forall url, CreateVaultParams.iconUrl params = Some url -> url <> "" ->
     let main := createVaultCall packageId params rate (NestedResult (S n) 0) in
     (rate <= MAX_U64 ->
        build tx = ((tx ++ [urlCall url; optionSomeCall n; main])%list, Return tt))
     /\ (MAX_U64 < rate ->
        build tx = ((tx ++ [urlCall url; optionSomeCall n])%list, Throw TypeError))).
Proof.
  intros Hvalid Hrate n build. subst build.
  pose proof (buildCreateVaultTx_valid packageId params tx rate Hvalid Hrate) as E.
  cbv zeta in E. fold n in E.
  split.
  - intros Habsent main.
    assert (truthy (CreateVaultParams.iconUrl params) = None) as Htruthy
      by (destruct Habsent as [-> | ->]; reflexivity).
    unfold auxiliaryCalls, optionUrlHandle in E. rewrite Htruthy in E. fold main in E.
    destruct (Z.ltb_spec MAX_U64 rate) as [Habove|Hfit].
    + split; [lia|intros _; exact E].
    + split; [intros _; exact E|lia].
  - intros url Hsome Hne main. rewrite Hsome in E.
    unfold auxiliaryCalls, optionUrlHandle in E.
    rewrite (truthy_nonempty url Hne) in E. fold main in E.
    destruct (Z.ltb_spec MAX_U64 rate) as [Habove|Hfit].
    + split; [lia|intros _; exact E].
    + split; [intros _; exact E|lia].
Qed.

(** the build with an icon, on an empty transaction *)
Lemma buildCreateVaultTx_auxiliary_calls_witness :
  buildCreateVaultTx Sample.packageId (Sample.paramsOf Sample.configWithIcon) []
  = ([urlCall "https://riva.example/icon.png"; optionSomeCall 0;
      createVaultCall Sample.packageId (Sample.paramsOf Sample.configWithIcon) 2000000000
        (NestedResult 1 0)],
     Return tt).
Proof.
  refine (proj1 (proj2 (@buildCreateVaultTx_auxiliary_calls sampleHost Sample.packageId
                          (Sample.paramsOf Sample.configWithIcon) [] 2000000000 _ _)
                   "https://riva.example/icon.png" _ _) _);
    [vm_compute; reflexivity | vm_compute; reflexivity | reflexivity | discriminate
    | unfold MAX_U64; lia].
Defined.

(** C7, at the input where the code departs from it.  The configuration of
    the quick start with an icon and the rate [2^64] passes
    [validateVaultConfig].  The build appends the two auxiliary calls that
    the claim names, [0x2::url::new_unsafe] and [0x1::option::some], and
    then throws in the u64 encoder: the main create-vault call, before which
    the claim places them, is not appended, and no call of the transaction
    is a create-vault call.  The same holds with the icon absent, after the
    one auxiliary call [0x1::option::none].  With the rate of the quick
    start the two auxiliary calls are followed by the main call. *)
Theorem buildCreateVaultTx_main_call_missing :
  @validateVaultConfig sampleHost Sample.configWithIconRateAbove = Return tt
  /\ buildCreateVaultTx Sample.packageId (Sample.paramsOf Sample.configWithIconRateAbove) []
     = ([urlCall "https://riva.example/icon.png"; optionSomeCall 0], Throw TypeError)
  /\ (forall call typeArguments arguments,
        In call (fst (buildCreateVaultTx Sample.packageId
                        (Sample.paramsOf Sample.configWithIconRateAbove) [])) ->
        call <> MoveCall (target_of Sample.packageId VAULT_FUNCTIONS.CREATE_VAULT)
                  typeArguments arguments)
  /\ @validateVaultConfig sampleHost Sample.configRateAbove = Return tt
  /\ appended (buildCreateVaultTx Sample.packageId (Sample.paramsOf Sample.configRateAbove)) []
     = [optionNoneCall]
  /\ buildCreateVaultTx Sample.packageId (Sample.paramsOf Sample.configWithIcon) []
     = ([urlCall "https://riva.example/icon.png"; optionSomeCall 0;
         createVaultCall Sample.packageId (Sample.paramsOf Sample.configWithIcon) 2000000000
           (NestedResult 1 0)],
        Return tt).
Proof.
  assert (buildCreateVaultTx Sample.packageId
            (Sample.paramsOf Sample.configWithIconRateAbove) []
          = ([urlCall "https://riva.example/icon.png"; optionSomeCall 0], Throw TypeError))
    as E by (vm_compute; reflexivity).
  repeat match goal with |- _ /\ _ => split end;
    try exact E; try (vm_compute; reflexivity).
  intros call typeArguments arguments Hin. rewrite E in Hin. cbn [fst] in Hin.
  destruct Hin as [<-|[<-|[]]]; intros Heq; injection Heq as Htarget _ _;
    vm_compute in Htarget; discriminate Htarget.
Qed.

(** ** The client's check of a coin given as a string *)

Section ObjectIds.

Lemma test_0x_hex64_0x h :
  JsString.test_0x_hex64 ("0x" ++ h)
  = (String.length h =? 64)%nat && JsString.all JsString.isHexDigit h.
Proof. reflexivity. Qed.

Lemma test_0x_hex64_prefix s :
  JsString.test_0x_hex64 s = true -> exists h, s = "0x" ++ h.
Proof.
  destruct s as [|c1 [|c2 h]]; try discriminate.
  - destruct c1 as [[|] [|] [|] [|] [|] [|] [|] [|]]; discriminate.
  - destruct c1 as [[|] [|] [|] [|] [|] [|] [|] [|]]; try discriminate.
    destruct c2 as [[|] [|] [|] [|] [|] [|] [|] [|]]; try discriminate.
    intros _. now exists h.
Qed.

(** [isObjectIdString] accepts exactly [0x] followed by 64 hexadecimal
    digits *)
Lemma isObjectIdString_shape s : isObjectIdString s = true <-> ObjectIdShape s.
Proof.
  unfold isObjectIdString, ObjectIdShape. split.
  - intros Hs. destruct (test_0x_hex64_prefix s Hs) as [h ->].
    rewrite test_0x_hex64_0x in Hs. apply andb_prop in Hs as [Hlen Hhex].
    exists h. split; [reflexivity|]. split.
    + now apply Nat.eqb_eq.
    + now apply all_isHexDigit.
  - intros (h & -> & Hlen & Hhex). rewrite test_0x_hex64_0x.
    apply andb_true_intro. split.
    + now apply Nat.eqb_eq.
    + now apply all_isHexDigit.
Qed.

Lemma isObjectIdString_false s : ~ ObjectIdShape s -> isObjectIdString s = false.
Proof.
  intros Hs. destruct (isObjectIdString s) eqn:E; [|reflexivity].
  now apply isObjectIdString_shape in E.
Qed.

Lemma validateCoinType_valid coinType :
  isValidCoinType coinType = true -> validateCoinType coinType = Return coinType.
Proof. intros Hv. unfold validateCoinType. now rewrite Hv. Qed.

End ObjectIds.

(** C6, at the input where the code departs from it.  The input coin is
    the bare amount [1000], not an object id, and the input coin type has a
    module name that starts with a digit.  [mint_and_transfer] validates the
    coin types before it looks at the input coin, and [validateCoinType]
    throws a plain [Error]: the call fails with nothing appended, but not
    with the [VaultError] of code INVALID_PARAMETERS that the claim, and the
    method for malformed ids or types, promise.  With the coin type
    well-formed the same call does fail with INVALID_PARAMETERS. *)
Theorem mint_and_transfer_malformed_type_plain_error :
  ~ ObjectIdShape "1000"
  /\ MintParams.inputCoin Sample.mintBadType = ObjectId "1000"
  /\ isValidCoinType (MintParams.inputCoinType Sample.mintBadType) = false
  /\ @mint_and_transfer sampleHost Sample.packageId Sample.mintBadType "0x7" []
     = ([], Throw (Error "Invalid coin type format: 0x2::1abc::SUI"))
  /\ @mint_and_transfer sampleHost Sample.packageId Sample.mintBadType "0x7" []
     <> ([], Throw (VaultError INVALID_PARAMETERS))
  /\ @mint_and_transfer sampleHost Sample.packageId Sample.mintBareAmount "0x7" []
     = ([], Throw (VaultError INVALID_PARAMETERS)).
Proof.
  assert (@mint_and_transfer sampleHost Sample.packageId Sample.mintBadType "0x7" []
          = ([], Throw (Error "Invalid coin type format: 0x2::1abc::SUI"))) as E
    by (vm_compute; reflexivity).
  repeat match goal with |- _ /\ _ => split end;
    try exact E; try (vm_compute; reflexivity).
  - intros Hs. apply isObjectIdString_shape in Hs. discriminate Hs.
  - rewrite E. discriminate.
Qed.

(** The check of the input coin in general.  For every string given as the
    input coin of [mint_and_transfer] that is not [0x] followed by 64
    hexadecimal digits: the call fails and the transaction is left as it
    was, with no call appended; and when the input and output coin types are
    well-formed, the failure is the [VaultError] of code
    INVALID_PARAMETERS. *)
Lemma mint_and_transfer_rejects_non_object_id `{Host} (packageId : string)
  (params : MintParams.t) (recipient : string) (tx : Transaction) (s : string) :
  MintParams.inputCoin params = ObjectId s ->
  ~ ObjectIdShape s ->
  (exists e, mint_and_transfer packageId params recipient tx = (tx, Throw e))
  /\ (isValidCoinType (MintParams.inputCoinType params) = true ->
      isValidCoinType (MintParams.outputCoinType params) = true ->
      mint_and_transfer packageId params recipient tx
      = (tx, Throw (VaultError INVALID_PARAMETERS))).
Proof.
  intros Hcoin Hshape. apply isObjectIdString_false in Hshape.
  unfold mint_and_transfer, bindB, lift, validateCoinType.
  rewrite Hcoin, Hshape. cbn [negb].
  destruct (isValidCoinType (MintParams.inputCoinType params)); cbn [negb].
  - destruct (isValidCoinType (MintParams.outputCoinType params)); cbn [negb].
    + split; eauto.
    + split; [eauto|discriminate].
  - split; [eauto|discriminate].
Qed.

(** the scenario of the specification: a bare amount as the input coin *)
Lemma mint_and_transfer_rejects_non_object_id_witness :
  @mint_and_transfer sampleHost Sample.packageId Sample.mintBareAmount "0x7" []
  = ([], Throw (VaultError INVALID_PARAMETERS)).
Proof.
  refine (proj2 (@mint_and_transfer_rejects_non_object_id sampleHost Sample.packageId
                   Sample.mintBareAmount "0x7" [] "1000" _ _) _ _);
    [reflexivity
    | intros Hs; apply isObjectIdString_shape in Hs; discriminate Hs
    | vm_compute; reflexivity
    | vm_compute; reflexivity].
Defined.

(** C10.  [redeem] makes no check of the shape of a string given as its
    output coin.  For every string [s], an object id or not, and whatever
    the coin types: the outcome is decided by the coin types alone; [redeem]
    never raises INVALID_PARAMETERS, nor any other [VaultError]; and once
    the coin types have passed it hands [s] to the builder unchanged,
    appends the redeem call on the object [s] and returns the handle of its
    result.  When [s] is not [0x] followed by 64 hexadecimal digits,
    [redeem_and_transfer], [mint] and [deposit] on the contrary all refuse
    it with nothing appended, whatever the coin types, and with
    INVALID_PARAMETERS when the coin types are well-formed. *)
Theorem redeem_passes_any_string `{Host} (packageId : string)
  (params : RedeemParams.t) (tx : Transaction) (s : string) :
  RedeemParams.outputCoin params = ObjectId s ->
  let inputCoinType := RedeemParams.inputCoinType params in
  let outputCoinType := RedeemParams.outputCoinType params in
  let call := MoveCall (target_of packageId VAULT_FUNCTIONS.REDEEM)
                [inputCoinType; outputCoinType]
                [Object (RedeemParams.vaultId params);
                 Object (RedeemParams.metadataId params);
                 Object s] in
  redeem packageId params tx
  = (if isValidCoinType inputCoinType
     then if isValidCoinType outputCoinType
          then ((tx ++ [call])%list, Return (NestedResult (List.length tx) 0))
          else (tx, Throw (Error ("Invalid coin type format: " ++ outputCoinType)))
     else (tx, Throw (Error ("Invalid coin type format: " ++ inputCoinType))))
  /\ (forall tx' code, redeem packageId params tx <> (tx', Throw (VaultError code)))
  /\ (isValidCoinType inputCoinType = true -> isValidCoinType outputCoinType = true ->
      redeem packageId params tx = buildRedeemTx packageId params tx)
  /\ (~ ObjectIdShape s ->
      (forall recipient, exists e,
          redeem_and_transfer packageId params recipient tx = (tx, Throw e)
          /\ (isValidCoinType inputCoinType = true ->
              isValidCoinType outputCoinType = true ->
              e = VaultError INVALID_PARAMETERS))
      /\ (forall mintParams,
          MintParams.inputCoin mintParams = ObjectId s ->
          exists e,
            mint packageId mintParams tx = (tx, Throw e)
            /\ (isValidCoinType (MintParams.inputCoinType mintParams) = true ->
                isValidCoinType (MintParams.outputCoinType mintParams) = true ->
                e = VaultError INVALID_PARAMETERS))
      /\ (forall depositParams,
          DepositParams.inputCoin depositParams = ObjectId s ->
          exists e,
            deposit packageId depositParams tx = (tx, Throw e)
            /\ (isValidCoinType (DepositParams.inputCoinType depositParams) = true ->
                e = VaultError INVALID_PARAMETERS))).
Proof.
  intros Hcoin inputCoinType outputCoinType call.
  assert (redeem packageId params tx
          = (if isValidCoinType inputCoinType
             then if isValidCoinType outputCoinType
                  then ((tx ++ [call])%list, Return (NestedResult (List.length tx) 0))
                  else (tx, Throw (Error ("Invalid coin type format: " ++ outputCoinType)))
             else (tx, Throw (Error ("Invalid coin type format: " ++ inputCoinType)))))
    as Hredeem.
  { subst inputCoinType outputCoinType call.
    cbv [redeem bindB lift validateCoinType buildRedeemTx ret moveCall add first tx_object].
    destruct (isValidCoinType (RedeemParams.inputCoinType params)); cbn [negb];
      [|reflexivity].
    destruct (isValidCoinType (RedeemParams.outputCoinType params)); cbn [negb];
      [|reflexivity].
    cbn [RedeemParams.vaultId RedeemParams.metadataId RedeemParams.outputCoin
         RedeemParams.inputCoinType RedeemParams.outputCoinType].
    now rewrite Hcoin. }
  split; [exact Hredeem|]. split; [|split].
  - intros tx' code. rewrite Hredeem.
    destruct (isValidCoinType inputCoinType), (isValidCoinType outputCoinType);
      discriminate.
  - intros Hin Hout. subst inputCoinType outputCoinType.
    unfold redeem, bindB, lift.
    rewrite (validateCoinType_valid _ Hin), (validateCoinType_valid _ Hout).
    now destruct params.
  - intros Hshape. apply isObjectIdString_false in Hshape.
    split; [|split].
    + intros recipient. subst inputCoinType outputCoinType.
      unfold redeem_and_transfer, bindB, lift, validateCoinType.
      rewrite Hcoin, Hshape. cbn [negb].
      destruct (isValidCoinType (RedeemParams.inputCoinType params)),
               (isValidCoinType (RedeemParams.outputCoinType params));
        cbn [negb]; eexists; (split; [reflexivity|]); intros; congruence.
    + intros mintParams Hmcoin.
      unfold mint, bindB, lift, validateCoinType.
      rewrite Hmcoin, Hshape. cbn [negb].
      destruct (isValidCoinType (MintParams.inputCoinType mintParams)),
               (isValidCoinType (MintParams.outputCoinType mintParams));
        cbn [negb]; eexists; (split; [reflexivity|]); intros; congruence.
    + intros depositParams Hdcoin.
      unfold deposit, bindB, lift, validateCoinType.
      rewrite Hdcoin, Hshape. cbn [negb].
      destruct (isValidCoinType (DepositParams.inputCoinType depositParams));
        cbn [negb]; eexists; (split; [reflexivity|]); intros; congruence.
Qed.

(** a bare amount as the output coin of [redeem]: with well-formed coin
    types the call is appended on it; with a malformed coin type the error
    is that of the coin type *)
Lemma redeem_passes_any_string_witness :
  redeem Sample.packageId Sample.redeemBareAmount []
  = ([MoveCall (target_of Sample.packageId VAULT_FUNCTIONS.REDEEM)
        ["0x2::sui::SUI"; "0x2::usdc::USDC"]
        [Object "0x1"; Object "0x2"; Object "1000"]],
     Return (NestedResult 0 0))
  /\ redeem Sample.packageId Sample.redeemBadType []
     = ([], Throw (Error "Invalid coin type format: 0x2::1abc::SUI")).
Proof.
  split.
  - refine (eq_trans (proj1 (@redeem_passes_any_string sampleHost Sample.packageId
                               Sample.redeemBareAmount [] "1000" _)) _);
      [reflexivity | vm_compute; reflexivity].
  - refine (eq_trans (proj1 (@redeem_passes_any_string sampleHost Sample.packageId
                               Sample.redeemBadType [] "1000" _)) _);
      [reflexivity | vm_compute; reflexivity].
Defined.


(* ===================================================================== *)
(** * Further properties of the code *)
(* ===================================================================== *)

(** ** The exchange calculations on all integers *)

Section ExchangeOutcomes.

Lemma trimEnd_cons c s a r :
  JsBigInt.trimEnd s = String a r ->
  JsBigInt.trimEnd (String c s) = String c (String a r).
Proof. intros E. cbn [JsBigInt.trimEnd]. now rewrite E. Qed.

Lemma StringToBigInt_minus_point_or_e c x tail :
  JsString.isDigit c = true ->
  x = "."%char \/ x = "e"%char ->
  JsBigInt.StringToBigInt (String "-" (String c (String x tail))) = None.
Proof.
  intros Hc Hx. unfold JsBigInt.StringToBigInt.
  assert (JsBigInt.isStrWhiteSpaceChar x = false) as Hxs
    by (destruct Hx; subst x; reflexivity).
  change (JsBigInt.trimStart (String "-" (String c (String x tail))))
    with (String "-" (String c (String x tail))).
  destruct (trimEnd_keeps_head x tail Hxs) as [t Ht].
  assert (JsBigInt.trimEnd (String "-" (String c (String x tail)))
          = String "-" (String c (String x t))) as ->.
  { rewrite (trimEnd_cons "-" (String c (String x tail)) c (String x t)); [reflexivity|].
    now rewrite (trimEnd_cons c (String x tail) x t). }
  assert (JsBigInt.parseDecimal (String c (String x t)) = None) as Hdec.
  { unfold JsBigInt.parseDecimal. cbn [NilEmpty.uint_of_string].
    destruct Hx; subst x; destruct (NilEmpty.uint_of_string t); cbn;
      destruct (uint_of_char c None) eqn:E; try reflexivity;
      destruct c as [[|] [|] [|] [|] [|] [|] [|] [|]]; discriminate E. }
  cbv beta iota. now rewrite Hdec.
Qed.

(** the numeral of an integer-valued BigNumber is read back by [BigInt]
    exactly when the integer lies strictly between [-10^18] and [10^18] *)
Lemma BigInt_toString_integer_any z :
  (- 10 ^ 18 < z < 10 ^ 18 /\ BigInt (BigNumber.toString_integer z) = Return z)
  \/ ((z <= - 10 ^ 18 \/ 10 ^ 18 <= z)
      /\ BigInt (BigNumber.toString_integer z) = Throw SyntaxError).
Proof.
  destruct z as [|p|p].
  - left. split; [lia|reflexivity].
  - destruct (BigInt_toString_integer_cases (Zpos p) ltac:(lia)) as [[Hs E]|[Hl E]].
    + left. split; [lia|exact E].
    + right. split; [lia|exact E].
  - cbn [BigNumber.toString_integer]. unfold BigNumber.numeral.
    destruct (BigNumber.TO_EXP_POS <=? BigNumber.exponent10 p) eqn:E.
    + right. apply exponential_from_1e18 in E. split; [lia|].
      pose proof (digits_nonempty p) as Hne.
      pose proof (digits_all_decimal (Pos.to_uint p)) as Hall.
      fold (JsBigInt.digits p) in Hall.
      destruct (JsBigInt.digits p) as [|c rest]; [congruence|].
      simpl in Hall. apply andb_prop in Hall as [Hc _].
      cbn [BigNumber.coeffToString].
      destruct (toExponential_shape c (BigNumber.stripTrailingZeros rest)
                  (BigNumber.exponent10 p)) as (x & tail & -> & Hx).
      unfold BigInt. now rewrite StringToBigInt_minus_point_or_e.
    + left. split.
      * assert (~ 10 ^ 18 <= Zpos p) as Hn.
        { intros Hge. apply exponential_from_1e18 in Hge. congruence. }
        lia.
      * exact (BigInt_toString (Zneg p)).
Qed.

Lemma BigInt_toString_integer_no_VaultError z code :
  BigInt (BigNumber.toString_integer z) <> Throw (VaultError code).
Proof.
  destruct (BigInt_toString_integer_any z) as [[_ ->]|[_ ->]]; discriminate.
Qed.

(** cutting a quotient at 18 decimals and then at the point is cutting it at
    the point *)
Lemma quot_through_scale x i :
  0 < i -> Z.quot (Z.quot (x * 10 ^ 18) i) (10 ^ 18) = Z.quot x i.
Proof.
  intros Hi.
  assert (forall y, 0 <= y -> Z.quot (Z.quot (y * 10 ^ 18) i) (10 ^ 18) = Z.quot y i) as Hpos.
  { intros y Hy.
    rewrite (Z.quot_div_nonneg (y * 10 ^ 18) i) by lia.
    assert (0 <= y * 10 ^ 18 / i) by (apply Z.div_pos; lia).
    rewrite !Z.quot_div_nonneg by lia.
    rewrite Z.div_div by lia.
    now rewrite Z.div_mul_cancel_r by lia. }
  destruct (Z.le_gt_cases 0 x) as [Hx|Hx]; [now apply Hpos|].
  assert (exists y, 0 <= y /\ x = - y) as (y & Hy & ->) by (exists (- x); lia).
  rewrite Z.mul_opp_l.
  rewrite (Z.quot_opp_l (y * 10 ^ 18) i) by lia.
  rewrite (Z.quot_opp_l _ (10 ^ 18)) by lia.
  rewrite (Z.quot_opp_l y i) by lia.
  now rewrite Hpos.
Qed.

(** [calculateExchangeRate] in closed form *)
Lemma calculateExchangeRate_eq i o d :
  calculateExchangeRate i o d =
    if i <=? 0 then Throw (VaultError DIVISION_BY_ZERO)
    else if MAX_U64 * 10 ^ 18 <? Z.quot (o * 10 ^ Z.of_N d * 10 ^ 18) i
    then Throw (VaultError ARITHMETIC_OVERFLOW)
    else BigInt (BigNumber.toString_integer (Z.quot (o * 10 ^ Z.of_N d) i)).
Proof.
  unfold calculateExchangeRate.
  rewrite lte_of_Z, pow_of_Z, multipliedBy_of_Z, div_of_Z.
  destruct (Z.leb_spec i 0) as [|Hi]; [reflexivity|].
  unfold BigNumber.gt, BigNumber.compare, BigNumber.integerValue.
  cbn [BigNumber.coeff BigNumber.dp BigNumber.of_Z].
  rewrite Z.pow_0_r, Z.mul_1_r.
  rewrite quot_through_scale by lia.
  unfold Z.ltb. rewrite (Z.compare_antisym (Z.quot _ i) (MAX_U64 * 10 ^ 18)).
  now destruct (Z.quot (o * 10 ^ Z.of_N d * 10 ^ 18) i ?= MAX_U64 * 10 ^ 18).
Qed.

End ExchangeOutcomes.

(** X1.  [calculateInputAmount] on all integers: a rate that is zero or
    negative gives DIVISION_BY_ZERO whatever the amount; with a positive
    rate a negative amount gives INVALID_PARAMETERS; an amount above
    [floor(MAX_U64 / 10^d)] gives ARITHMETIC_OVERFLOW; and it returns [v]
    exactly when none of these holds, [v = floor(o * 10^d / r)] and
    [v < 10^18]. *)
Theorem calculateInputAmount_outcomes (r o : Z) (d : N) :
  (calculateInputAmount r o d = Throw (VaultError DIVISION_BY_ZERO) <-> r <= 0)
  /\ (calculateInputAmount r o d = Throw (VaultError INVALID_PARAMETERS)
      <-> 0 < r /\ o < 0)
  /\ (calculateInputAmount r o d = Throw (VaultError ARITHMETIC_OVERFLOW)
      <-> 0 < r /\ MAX_U64 / 10 ^ Z.of_N d < o)
  /\ (forall v, calculateInputAmount r o d = Return v
      <-> 0 < r /\ 0 <= o <= MAX_U64 / 10 ^ Z.of_N d
          /\ v = o * 10 ^ Z.of_N d / r /\ v < 10 ^ 18).
Proof.
  rewrite calculateInputAmount_eq.
  pose proof (ten_pow_pos d) as Hd.
  assert (0 <= MAX_U64 / 10 ^ Z.of_N d) as Hq
    by (apply Z.div_pos; [unfold MAX_U64; lia|lia]).
  destruct (Z.leb_spec r 0) as [Hr|Hr].
  { repeat match goal with |- _ /\ _ => split end;
      try intros v; split; intros; try discriminate; try reflexivity; lia. }
  destruct (Z.ltb_spec o 0) as [Ho|Ho].
  { repeat match goal with |- _ /\ _ => split end;
      try intros v; split; intros; try discriminate; try reflexivity; lia. }
  destruct (Z.ltb_spec (MAX_U64 / 10 ^ Z.of_N d) o) as [Hov|Hfit].
  { repeat match goal with |- _ /\ _ => split end;
      try intros v; split; intros; try discriminate; try reflexivity; lia. }
  assert (0 <= o * 10 ^ Z.of_N d / r) as Hnn by (apply Z.div_pos; nia).
  destruct (BigInt_toString_integer_cases _ Hnn) as [[Hs ->]|[Hl ->]];
    repeat match goal with |- _ /\ _ => split end;
    try intros v; split; intros; try discriminate; try lia.
  - match goal with H : Return _ = Return _ |- _ => injection H as <- end.
    repeat split; auto; lia.
  - f_equal. lia.
Qed.

(** X2.  The precedence of the errors of [calculateOutputAmount] on all
    integers: the rate is looked at first, so a rate that is zero or negative
    gives DIVISION_BY_ZERO even with a negative amount; INVALID_PARAMETERS is
    raised exactly for a positive rate with a negative amount; and the
    function never returns a negative value. *)
Theorem calculateOutputAmount_precedence (r a : Z) (d : N) :
  (calculateOutputAmount r a d = Throw (VaultError DIVISION_BY_ZERO) <-> r <= 0)
  /\ (calculateOutputAmount r a d = Throw (VaultError INVALID_PARAMETERS)
      <-> 0 < r /\ a < 0)
  /\ (forall v, calculateOutputAmount r a d = Return v -> 0 <= v <= MAX_U64).
Proof.
  split; [|split].
  - rewrite calculateOutputAmount_eq.
    destruct (Z.leb_spec r 0) as [Hr|Hr]; [split; auto; intros; lia|].
    destruct (Z.ltb_spec a 0) as [Ha|Ha]; [split; [discriminate|lia]|].
    destruct (Z.ltb_spec (MAX_U64 / r) a); [split; [discriminate|lia]|].
    split; [|lia]. intros E.
    now apply BigInt_toString_integer_no_VaultError in E.
  - rewrite calculateOutputAmount_eq.
    destruct (Z.leb_spec r 0) as [Hr|Hr]; [split; [discriminate|lia]|].
    destruct (Z.ltb_spec a 0) as [Ha|Ha]; [split; auto|].
    destruct (Z.ltb_spec (MAX_U64 / r) a); [split; [discriminate|lia]|].
    split; [|lia]. intros E.
    now apply BigInt_toString_integer_no_VaultError in E.
  - intros v Hv. apply calculateOutputAmount_returns in Hv as (Hr & Ha & -> & Hs).
    split; [apply output_nonneg; lia|]. unfold MAX_U64. lia.
Qed.

(** X3.  The round trip in the other direction: when
    [calculateInputAmount r o d] returns [i], converting [i] back with
    [calculateOutputAmount] raises no [VaultError], and any value it yields
    lies in [0, o]. *)
Theorem output_of_input_le (r o : Z) (d : N) (i : Z) :
  calculateInputAmount r o d = Return i ->
  (forall code, calculateOutputAmount r i d <> Throw (VaultError code))
  /\ (forall v, calculateOutputAmount r i d = Return v -> 0 <= v <= o).
Proof.
  intros Hi. apply calculateInputAmount_returns in Hi as (Hr & Ho & -> & Hs).
  pose proof (ten_pow_pos d) as Hd.
  pose proof (Z.mul_div_le MAX_U64 _ Hd) as Hmax.
  pose proof (Z.mul_div_le (o * 10 ^ Z.of_N d) r Hr) as Hfl.
  set (i := o * 10 ^ Z.of_N d / r) in *.
  assert (0 <= i) as Hi0 by (apply Z.div_pos; nia).
  assert (r * i <= MAX_U64) as Hprod by nia.
  assert (i <= MAX_U64 / r) as Hfit by (apply Z.div_le_lower_bound; lia).
  rewrite calculateOutputAmount_eq.
  destruct (Z.leb_spec r 0); [lia|].
  destruct (Z.ltb_spec i 0); [lia|].
  destruct (Z.ltb_spec (MAX_U64 / r) i); [lia|].
  split.
  - intros code. apply BigInt_toString_integer_no_VaultError.
  - intros v Hv.
    assert (0 <= r * i / 10 ^ Z.of_N d <= o) as Hv'.
    { split; [apply Z.div_pos; nia|].
      apply Z.div_le_upper_bound; lia. }
    destruct (BigInt_toString_integer_cases _ (proj1 Hv')) as [[_ E]|[_ E]];
      rewrite E in Hv; [|discriminate].
    injection Hv as <-. exact Hv'.
Qed.

Lemma output_of_input_le_witness : 0 <= 9 <= 10.
Proof.
  refine (proj2 (output_of_input_le 3 10 1 33 _) 9 _); vm_compute; reflexivity.
Defined.

(** X4.  [calculateOutputAmount] is monotone: with a larger amount, or a
    larger rate, it does not return less. *)
Theorem calculateOutputAmount_monotone (r r' a a' : Z) (d : N) (v v' : Z) :
  calculateOutputAmount r a d = Return v ->
  calculateOutputAmount r' a' d = Return v' ->
  r <= r' -> a <= a' -> v <= v'.
Proof.
  intros Hv Hv' Hr Ha.
  apply calculateOutputAmount_returns in Hv as (Hr0 & Ha0 & -> & _).
  apply calculateOutputAmount_returns in Hv' as (Hr0' & Ha0' & -> & _).
  apply Z.div_le_mono; [apply ten_pow_pos|]. nia.
Qed.

Lemma calculateOutputAmount_monotone_witness : 3 <= 8.
Proof.
  apply (calculateOutputAmount_monotone 3 4 10 20 1 3 8);
    [vm_compute; reflexivity | vm_compute; reflexivity | lia | lia].
Defined.

(** X5.  [calculateExchangeRate]: it raises DIVISION_BY_ZERO exactly when the
    input amount is zero or negative; it raises ARITHMETIC_OVERFLOW exactly
    when the input amount is positive and the quotient [o * 10^d / i], cut at
    18 decimals, exceeds [MAX_U64]; so a floored quotient of [MAX_U64 + 1]
    or more always overflows and one below [MAX_U64] never does; and for an
    output amount
    [o >= 0] whatever it returns is [floor(o * 10^d / i)], within
    [0, MAX_U64]. *)
Theorem calculateExchangeRate_outcomes (i o : Z) (d : N) :
  (calculateExchangeRate i o d = Throw (VaultError DIVISION_BY_ZERO) <-> i <= 0)
  /\ (calculateExchangeRate i o d = Throw (VaultError ARITHMETIC_OVERFLOW)
      <-> 0 < i /\ (MAX_U64 * 10 ^ 18 + 1) * i <= o * 10 ^ Z.of_N d * 10 ^ 18)
  /\ (0 < i -> MAX_U64 + 1 <= o * 10 ^ Z.of_N d / i ->
      calculateExchangeRate i o d = Throw (VaultError ARITHMETIC_OVERFLOW))
  /\ (calculateExchangeRate i o d = Throw (VaultError ARITHMETIC_OVERFLOW) ->
      MAX_U64 <= o * 10 ^ Z.of_N d / i)
  /\ (forall v, 0 <= o -> calculateExchangeRate i o d = Return v ->
      v = o * 10 ^ Z.of_N d / i /\ 0 <= v <= MAX_U64).
Proof.
  pose proof (ten_pow_pos d) as Hd.
  assert (forall x, 0 < i -> 0 <= x ->
            (MAX_U64 * 10 ^ 18 < Z.quot (x * 10 ^ 18) i
             <-> (MAX_U64 * 10 ^ 18 + 1) * i <= x * 10 ^ 18)) as Hcut.
  { intros x Hi Hx. rewrite Z.quot_div_nonneg by lia.
    pose proof (Z.mul_div_le (x * 10 ^ 18) i Hi).
    pose proof (Z.mul_succ_div_gt (x * 10 ^ 18) i Hi).
    split; intros; nia. }
  assert (0 < i -> o < 0 -> Z.quot (o * 10 ^ Z.of_N d * 10 ^ 18) i <= 0) as Hneg.
  { intros Hi Ho. replace (o * 10 ^ Z.of_N d * 10 ^ 18)
      with (- (- o * 10 ^ Z.of_N d * 10 ^ 18)) by lia.
    rewrite Z.quot_opp_l by lia.
    assert (0 <= Z.quot (- o * 10 ^ Z.of_N d * 10 ^ 18) i)
      by (apply Z.quot_pos; nia).
    lia. }
  assert (calculateExchangeRate i o d = Throw (VaultError ARITHMETIC_OVERFLOW)
          <-> 0 < i /\ (MAX_U64 * 10 ^ 18 + 1) * i <= o * 10 ^ Z.of_N d * 10 ^ 18) as Hov.
  { rewrite calculateExchangeRate_eq.
    destruct (Z.leb_spec i 0) as [Hi|Hi]; [split; [discriminate|lia]|].
    destruct (Z.ltb_spec (MAX_U64 * 10 ^ 18) (Z.quot (o * 10 ^ Z.of_N d * 10 ^ 18) i))
      as [Hlt|Hge].
    - split; [intros _|reflexivity]. split; [lia|].
      destruct (Z.lt_ge_cases o 0) as [Ho|Ho].
      + specialize (Hneg Hi Ho). unfold MAX_U64 in Hlt. lia.
      + apply Hcut; auto. nia.
    - split.
      + intros E. now apply BigInt_toString_integer_no_VaultError in E.
      + intros [_ Hle]. exfalso.
        destruct (Z.lt_ge_cases o 0) as [Ho|Ho].
        * unfold MAX_U64 in Hle. nia.
        * apply Hcut in Hle; [lia|lia|nia]. }
  split; [|split; [exact Hov|split; [|split]]].
  - rewrite calculateExchangeRate_eq.
    destruct (Z.leb_spec i 0) as [Hi|Hi]; [split; auto; intros; lia|].
    destruct (_ <? _); [split; [discriminate|lia]|].
    split; [|lia]. intros E. now apply BigInt_toString_integer_no_VaultError in E.
  - intros Hi Hbig. apply Hov. split; [lia|].
    pose proof (Z.mul_div_le (o * 10 ^ Z.of_N d) i Hi). nia.
  - intros E. apply Hov in E as [Hi Hle].
    apply Z.div_le_lower_bound; [lia|]. unfold MAX_U64 in *. nia.
  - intros v Ho. rewrite calculateExchangeRate_eq.
    destruct (Z.leb_spec i 0) as [Hi|Hi]; [discriminate|].
    destruct (Z.ltb_spec (MAX_U64 * 10 ^ 18) (Z.quot (o * 10 ^ Z.of_N d * 10 ^ 18) i))
      as [|Hge]; [discriminate|].
    rewrite (Z.quot_div_nonneg (o * 10 ^ Z.of_N d) i) by nia.
    assert (0 <= o * 10 ^ Z.of_N d / i) as Hnn by (apply Z.div_pos; nia).
    destruct (BigInt_toString_integer_cases _ Hnn) as [[_ ->]|[_ ->]]; [|discriminate].
    intros [= <-]. split; [reflexivity|]. split; [exact Hnn|].
    rewrite Z.quot_div_nonneg in Hge by nia.
    pose proof (Z.mul_div_le (o * 10 ^ Z.of_N d) i Hi).
    pose proof (Z.mul_succ_div_gt (o * 10 ^ Z.of_N d * 10 ^ 18) i Hi).
    unfold MAX_U64 in *. nia.
Qed.

Lemma calculateExchangeRate_outcomes_witness :
  2000000000 = 2000000000 * 10 ^ Z.of_N 9 / 1000000000
  /\ 0 <= 2000000000 <= MAX_U64.
Proof.
  refine (proj2 (proj2 (proj2 (proj2
            (calculateExchangeRate_outcomes 1000000000 2000000000 9)))) 2000000000 _ _);
    [lia | vm_compute; reflexivity].
Defined.

(** X6.  [calculateExchangeRate] does not refuse a negative output amount
    as the two conversions do.  With a positive input amount and a negative
    output amount the quotient [q], truncated towards zero, is negative or
    zero, and no [VaultError] is raised: the call returns [q] as the rate
    when [q] is above [-10^18], and otherwise ends in the SyntaxError of
    [BigInt] on a numeral in exponential notation. *)
Theorem calculateExchangeRate_negative_output (i o : Z) (d : N) :
  0 < i -> o < 0 ->
  let q := Z.quot (o * 10 ^ Z.of_N d) i in
  q <= 0
  /\ calculateExchangeRate i o d
     = (if q <=? - 10 ^ 18 then Throw SyntaxError else Return q).
Proof.
  intros Hi Ho q.
  pose proof (ten_pow_pos d) as Hd.
  assert (forall x, x < 0 -> Z.quot x i <= 0) as Hneg.
  { intros x Hx. replace x with (- (- x)) by lia.
    rewrite Z.quot_opp_l by lia.
    assert (0 <= Z.quot (- x) i) by (apply Z.quot_pos; lia). lia. }
  pose proof (Hneg (o * 10 ^ Z.of_N d) ltac:(nia)) as Hq. fold q in Hq.
  pose proof (Hneg (o * 10 ^ Z.of_N d * 10 ^ 18) ltac:(nia)) as Hq'.
  split; [exact Hq|].
  rewrite calculateExchangeRate_eq. fold q.
  destruct (Z.leb_spec i 0); [lia|].
  destruct (Z.ltb_spec (MAX_U64 * 10 ^ 18) (Z.quot (o * 10 ^ Z.of_N d * 10 ^ 18) i));
    [unfold MAX_U64 in *; lia|].
  destruct (BigInt_toString_integer_any q) as [[Hs E]|[Hl E]]; rewrite E.
  - destruct (Z.leb_spec q (- 10 ^ 18)); [lia|reflexivity].
  - destruct (Z.leb_spec q (- 10 ^ 18)); [reflexivity|lia].
Qed.

Lemma calculateExchangeRate_negative_output_witness :
  calculateExchangeRate 2 (-5) 0 = Return (-2)
  /\ calculateExchangeRate 1 (-1000000000000000000) 0 = Throw SyntaxError.
Proof.
  split.
  - refine (eq_trans (proj2 (calculateExchangeRate_negative_output 2 (-5) 0 _ _)) _);
      [lia | lia | vm_compute; reflexivity].
  - refine (eq_trans (proj2 (calculateExchangeRate_negative_output
                               1 (-1000000000000000000) 0 _ _)) _);
      [lia | lia | vm_compute; reflexivity].
Defined.

(** X7.  A rate computed from two amounts does not over-quote: when
    [calculateExchangeRate i o d] returns [r] for an output amount [o >= 0],
    applying [r] to the input amount [i] never gives more than [o]. *)
Theorem rate_of_amounts_does_not_overquote (i o : Z) (d : N) (r v : Z) :
  0 <= o ->
  calculateExchangeRate i o d = Return r ->
  calculateOutputAmount r i d = Return v ->
  0 <= v <= o.
Proof.
  intros Ho Hr Hv.
  pose proof (ten_pow_pos d) as Hd.
  destruct (calculateExchangeRate_outcomes i o d) as (_ & _ & _ & _ & Hret).
  destruct (Hret r Ho Hr) as (-> & Hr0 & _).
  apply calculateOutputAmount_returns in Hv as (Hpos & Hi & -> & _).
  assert (0 < i).
  { rewrite calculateExchangeRate_eq in Hr.
    destruct (Z.leb_spec i 0); [discriminate|lia]. }
  pose proof (Z.mul_div_le (o * 10 ^ Z.of_N d) i ltac:(lia)).
  split; [apply Z.div_pos; nia|].
  apply Z.div_le_upper_bound; [lia|]. nia.
Qed.

Lemma rate_of_amounts_does_not_overquote_witness : 0 <= 9 <= 10.
Proof.
  apply (rate_of_amounts_does_not_overquote 3 10 1 33 9);
    [lia | vm_compute; reflexivity | vm_compute; reflexivity].
Defined.


(** ** Splitting at [::] *)

Section Splitting.

Lemma string_of_list_ascii_app l k :
  string_of_list_ascii (l ++ k) = string_of_list_ascii l ++ string_of_list_ascii k.
Proof. induction l; simpl; congruence. Qed.

Lemma append_assoc (a b c : string) : (a ++ b) ++ c = a ++ b ++ c.
Proof. induction a; simpl; congruence. Qed.

Lemma append_empty_r s : s ++ "" = s.
Proof. induction s; simpl; congruence. Qed.

Lemma split_step c cur s :
  c <> ":"%char ->
  JsString.split_colons_from cur (String c s) = JsString.split_colons_from (c :: cur) s.
Proof.
  intros Hc. cbn [JsString.split_colons_from].
  destruct s as [|c' s']; [reflexivity|].
  apply Ascii.eqb_neq in Hc. now rewrite Hc.
Qed.

Lemma noColon_cons c s : noColon (String c s) -> c <> ":"%char /\ noColon s.
Proof.
  intros H. split; [apply H; now left|]. intros x Hx. apply H. now right.
Qed.

(** a piece without colons, standing last *)
Lemma split_last p : forall cur,
  noColon p ->
  JsString.split_colons_from cur p
  = [string_of_list_ascii (List.rev cur) ++ p].
Proof.
  induction p as [|c p IH]; intros cur Hp.
  - cbn. now rewrite append_empty_r.
  - apply noColon_cons in Hp as [Hc Hp].
    rewrite split_step by exact Hc. rewrite IH by exact Hp.
    cbn [List.rev]. rewrite string_of_list_ascii_app, append_assoc. reflexivity.
Qed.

(** a piece without colons, followed by the separator *)
Lemma split_piece p : forall cur rest,
  noColon p ->
  JsString.split_colons_from cur (p ++ "::" ++ rest)
  = (string_of_list_ascii (List.rev cur) ++ p) :: JsString.split_colons_from [] rest.
Proof.
  induction p as [|c p IH]; intros cur rest Hp.
  - cbn. now rewrite append_empty_r.
  - apply noColon_cons in Hp as [Hc Hp].
    change (String c p ++ "::" ++ rest) with (String c (p ++ "::" ++ rest)).
    rewrite split_step by exact Hc. rewrite IH by exact Hp.
    cbn [List.rev]. rewrite string_of_list_ascii_app, append_assoc. reflexivity.
Qed.

Lemma split_two c c' s cur :
  JsString.split_colons_from cur (String c (String c' s))
  = if Ascii.eqb c ":" && Ascii.eqb c' ":"
    then string_of_list_ascii (List.rev cur) :: JsString.split_colons_from [] s
    else JsString.split_colons_from (c :: cur) (String c' s).
Proof. reflexivity. Qed.

(** a split has at least one piece *)
Lemma split_nonempty s :
  (forall cur, JsString.split_colons_from cur s <> [])
  /\ (forall c cur, JsString.split_colons_from cur (String c s) <> []).
Proof.
  induction s as [|c' s [IH1 IH2]].
  - split; intros; discriminate.
  - split; [intros cur; apply IH2|].
    intros c cur. rewrite split_two.
    destruct (Ascii.eqb c ":" && Ascii.eqb c' ":"); [discriminate|apply IH2].
Qed.

(** joining the pieces of a split gives the string back *)
Lemma join_split_from s :
  (forall cur, join_colons (JsString.split_colons_from cur s)
               = string_of_list_ascii (List.rev cur) ++ s)
  /\ (forall c cur, join_colons (JsString.split_colons_from cur (String c s))
                    = string_of_list_ascii (List.rev cur) ++ String c s).
Proof.
  assert (forall cur, join_colons (JsString.split_colons_from cur "")
                      = string_of_list_ascii (List.rev cur) ++ "") as Hnil
    by (intros cur; cbn; now rewrite append_empty_r).
  assert (forall t, (forall cur, join_colons (JsString.split_colons_from cur t)
                                 = string_of_list_ascii (List.rev cur) ++ t) ->
          forall cur l, JsString.split_colons_from [] t = l ->
          join_colons (string_of_list_ascii (List.rev cur) :: l)
          = string_of_list_ascii (List.rev cur) ++ "::" ++ t) as Hcons.
  { intros t Ht cur l <-.
    pose proof (Ht []) as E. cbn [List.rev string_of_list_ascii append] in E.
    cbn [join_colons].
    destruct (JsString.split_colons_from [] t) eqn:El.
    - now apply (proj1 (split_nonempty t)) in El.
    - now rewrite E. }
  induction s as [|c' s IH].
  - split; [exact Hnil|].
    intros c cur. cbn [JsString.split_colons_from join_colons List.rev].
    now rewrite string_of_list_ascii_app.
  - destruct IH as [IH1 IH2]. split; [intros cur; apply IH2|].
    intros c cur. rewrite split_two.
    destruct (Ascii.eqb c ":" && Ascii.eqb c' ":") eqn:E.
    + apply andb_prop in E as [Ec Ec'].
      apply Ascii.eqb_eq in Ec, Ec'. subst c c'.
      now rewrite (Hcons s IH1 cur _ eq_refl).
    + rewrite IH2. cbn [List.rev].
      now rewrite string_of_list_ascii_app, append_assoc.
Qed.

Lemma join_split s : join_colons (JsString.split_colons s) = s.
Proof. exact (proj1 (join_split_from s) []). Qed.

End Splitting.

(** ** The other validators *)

Section OtherValidators.

Lemma all_spec p s :
  JsString.all p s = true <-> (forall c, In c (list_ascii_of_string s) -> p c = true).
Proof.
  induction s as [|c s IH]; cbn [JsString.all list_ascii_of_string].
  - split; auto; intros _ c [].
  - rewrite andb_true_iff, IH. split.
    + intros [Hc Hs] x [<-|Hx]; auto.
    + intros Hall. split; [apply Hall; now left|]. intros x Hx. apply Hall. now right.
Qed.

Lemma in_alphabet c alphabet :
  existsb (Ascii.eqb c) (list_ascii_of_string alphabet) = true
  <-> In c (list_ascii_of_string alphabet).
Proof.
  rewrite existsb_exists. split.
  - intros (x & Hin & Heq). apply Ascii.eqb_eq in Heq. now subst.
  - intros Hin. exists c. split; auto. apply Ascii.eqb_refl.
Qed.

Lemma isIdentStart_spec c :
  JsString.isIdentStart c = true
  <-> In c (list_ascii_of_string "abcdefghijklmnopqrstuvwxyzABCDEFGHIJKLMNOPQRSTUVWXYZ_").
Proof.
  rewrite <- in_alphabet.
  destruct c as [[|] [|] [|] [|] [|] [|] [|] [|]]; vm_compute; tauto.
Qed.

Lemma isIdentPart_spec c :
  JsString.isIdentPart c = true
  <-> In c (list_ascii_of_string
              "abcdefghijklmnopqrstuvwxyzABCDEFGHIJKLMNOPQRSTUVWXYZ_0123456789").
Proof.
  rewrite <- in_alphabet.
  destruct c as [[|] [|] [|] [|] [|] [|] [|] [|]]; vm_compute; tauto.
Qed.

Lemma isDigestChar_spec c :
  isDigestChar c = true <-> In c (list_ascii_of_string base58).
Proof.
  rewrite <- in_alphabet.
  destruct c as [[|] [|] [|] [|] [|] [|] [|] [|]]; vm_compute; tauto.
Qed.

Lemma test_identifier_shape s : JsString.test_identifier s = true <-> IdentifierShape s.
Proof.
  unfold IdentifierShape. destruct s as [|c rest]; cbn [JsString.test_identifier].
  - split; [discriminate|]. intros (c & rest & E & _). discriminate E.
  - rewrite andb_true_iff, isIdentStart_spec, all_spec. split.
    + intros [Hc Hrest]. exists c, rest. split; [reflexivity|]. split; [exact Hc|].
      intros x Hx. apply isIdentPart_spec. now apply Hrest.
    + intros (c0 & rest0 & [= <- <-] & Hc & Hrest). split; [exact Hc|].
      intros x Hx. apply isIdentPart_spec. now apply Hrest.
Qed.

Lemma isIdentPart_noColon s :
  (forall x, In x (list_ascii_of_string s) -> JsString.isIdentPart x = true) -> noColon s.
Proof. intros H c Hc ->. specialize (H _ Hc). discriminate H. Qed.

Lemma IdentifierShape_noColon s : IdentifierShape s -> noColon s.
Proof.
  intros Hs. apply test_identifier_shape in Hs.
  destruct s as [|c rest]; [discriminate|].
  cbn [JsString.test_identifier] in Hs. apply andb_prop in Hs as [Hc Hrest].
  apply isIdentPart_noColon. intros x [<-|Hx].
  - unfold JsString.isIdentPart. now rewrite Hc.
  - now apply (proj1 (all_spec _ _) Hrest).
Qed.

Lemma HexDigits_noColon h : HexDigits h -> noColon h.
Proof.
  intros Hh c Hc ->. apply Hh in Hc. apply isHexDigit_spec in Hc. discriminate Hc.
Qed.

Lemma AddressShape_noColon a : AddressShape a -> noColon a.
Proof.
  intros (h & -> & _ & Hh) c [<-|[<-|Hc]]; try discriminate.
  now apply (HexDigits_noColon h Hh).
Qed.

Lemma split_three a m t :
  noColon a -> noColon m -> noColon t ->
  JsString.split_colons (a ++ "::" ++ m ++ "::" ++ t) = [a; m; t].
Proof.
  intros Ha Hm Ht. unfold JsString.split_colons.
  rewrite (split_piece a [] _ Ha), (split_piece m [] _ Hm), (split_last t [] Ht).
  reflexivity.
Qed.

Lemma trimStart_cases s :
  (JsBigInt.trimStart s = ""
   /\ forall c, In c (list_ascii_of_string s) -> JsBigInt.isStrWhiteSpaceChar c = true)
  \/ (exists c rest, JsBigInt.trimStart s = String c rest
        /\ JsBigInt.isStrWhiteSpaceChar c = false /\ In c (list_ascii_of_string s)).
Proof.
  induction s as [|c s IH]; cbn [JsBigInt.trimStart list_ascii_of_string].
  - left. split; [reflexivity|]. intros c [].
  - destruct (JsBigInt.isStrWhiteSpaceChar c) eqn:Hc.
    + destruct IH as [[E Hall]|(x & rest & E & Hx & Hin)].
      * left. split; [exact E|]. intros y [<-|Hy]; auto.
      * right. exists x, rest. repeat split; auto. now right.
    + right. exists c, s. repeat split; auto. now left.
Qed.

Lemma trimEnd_nonspace s :
  (forall c, In c (list_ascii_of_string s) -> JsBigInt.isStrWhiteSpaceChar c = false) ->
  JsBigInt.trimEnd s = s.
Proof.
  induction s as [|c s IH]; [reflexivity|]. intros Hall.
  cbn [JsBigInt.trimEnd]. rewrite IH by (intros x Hx; apply Hall; now right).
  rewrite (Hall c) by now left. now destruct s.
Qed.

(** white space at the end of a prefix stays when something that is kept
    follows *)
Lemma trimEnd_append p t :
  t <> "" -> JsBigInt.trimEnd t = t -> JsBigInt.trimEnd (p ++ t) = p ++ t.
Proof.
  intros Hne Ht. induction p as [|c p IH]; [exact Ht|].
  change (String c p ++ t) with (String c (p ++ t)).
  cbn [JsBigInt.trimEnd]. rewrite IH.
  destruct (p ++ t) eqn:E; [|reflexivity].
  destruct p; [cbn in E; congruence|discriminate E].
Qed.

End OtherValidators.

(** X8.  [isValidCoinType] accepts exactly the strings made of an address
    ([0x] and 1 to 64 hexadecimal digits), [::], a module name, [::] and a type
    name, the two names being identifiers; [validateCoinType] returns an
    accepted string unchanged.  So [0x2::sui::SUI] is accepted, and a missing
    address, a module name that starts with a digit and a fourth segment are
    refused. *)
Theorem isValidCoinType_shape :
  (forall s, isValidCoinType s = true <-> CoinTypeShape s)
  /\ (forall s, CoinTypeShape s -> validateCoinType s = Return s)
  /\ isValidCoinType "0x2::sui::SUI" = true
  /\ isValidCoinType "sui::SUI" = false
  /\ isValidCoinType "0x2::1abc::SUI" = false
  /\ isValidCoinType "0x2::sui::SUI::extra" = false.
Proof.
  assert (forall s, isValidCoinType s = true <-> CoinTypeShape s) as Hshape.
  { intros s. unfold CoinTypeShape. split.
    - unfold isValidCoinType. intros Hv.
      destruct (JsString.isEmpty s); [discriminate|].
      pose proof (join_split s) as Hjoin.
      destruct (JsString.split_colons s) as [|a [|m [|t [|]]]]; try discriminate.
      cbn [join_colons] in Hjoin.
      destruct (isValidSuiAddress a) eqn:Ha; [|discriminate].
      destruct (JsString.test_identifier m) eqn:Hm; [|discriminate].
      destruct (JsString.test_identifier t) eqn:Ht; [|discriminate].
      exists a, m, t. split; [now rewrite <- Hjoin|].
      split; [now apply isValidSuiAddress_shape|].
      split; now apply test_identifier_shape.
    - intros (a & m & t & -> & Ha & Hm & Ht).
      unfold isValidCoinType.
      rewrite (split_three a m t) by
        auto using AddressShape_noColon, IdentifierShape_noColon.
      apply isValidSuiAddress_shape in Ha as Ha'.
      apply test_identifier_shape in Hm, Ht.
      rewrite Ha', Hm, Ht.
      destruct Ha as (h & -> & _). reflexivity. }
  split; [exact Hshape|]. split.
  - intros s Hs. apply Hshape in Hs. unfold validateCoinType. now rewrite Hs.
  - repeat split; reflexivity.
Qed.

(** X9.  [validateAmountBounds] returns [v] exactly when the amount reads as
    the integer [v], [v >= 0], and [v] lies between the minimum and the
    maximum given; with neither given the bounds are [0] and [2^64 - 1], so
    that it then accepts exactly the unsigned 64-bit amounts. *)
Theorem validateAmountBounds_accepts (amount : Numeric) (min max : option Z) (v : Z) :
  (validateAmountBounds amount min max = Return v
   <-> BigInt (Numeric_toString amount) = Return v
       /\ 0 <= v
       /\ match min with Some m => m | None => 0 end <= v
       /\ v <= match max with Some m => m | None => MAX_U64 end)
  /\ (validateAmountBounds amount None None = Return v
      <-> BigInt (Numeric_toString amount) = Return v /\ 0 <= v <= MAX_U64).
Proof.
  assert (forall lo hi,
            validateAmountBounds amount lo hi = Return v
            <-> BigInt (Numeric_toString amount) = Return v
                /\ 0 <= v
                /\ match lo with Some m => m | None => 0 end <= v
                /\ v <= match hi with Some m => m | None => MAX_U64 end) as Hgen.
  { intros lo hi. unfold validateAmountBounds, validateAmount, isValidAmount.
    change 18446744073709551615 with MAX_U64.
    destruct (BigInt (Numeric_toString amount)) as [b|e]; cbn [negb bindO].
    - destruct (Z.leb_spec 0 b); cbn [negb bindO].
      + destruct (Z.ltb_spec b 0); [lia|]. cbn [bindO].
        destruct (Z.ltb_spec b (match lo with Some m => m | None => 0 end)).
        * split; [discriminate|]. intros ([= <-] & ?). lia.
        * destruct (Z.ltb_spec (match hi with Some m => m | None => MAX_U64 end) b).
          -- split; [discriminate|]. intros ([= <-] & ?). lia.
          -- split; [intros [= <-]; auto|]. now intros ([= <-] & _).
      + split; [discriminate|]. intros ([= <-] & ?). lia.
    - split; [discriminate|]. now intros ([=] & _). }
  split; [apply Hgen|].
  rewrite (Hgen None None). intuition lia.
Qed.

(** X10.  The second checks of [validateRate] and [validateAmount] can never
    fail: whatever is refused is refused with the message [Invalid rate: ...]
    or [Invalid amount: ...], never with [Rate must be positive] or
    [Amount must be non-negative]; and what is accepted is the integer that
    the input reads as. *)
Theorem validators_only_error (x : Numeric) :
  (forall e, validateRate x = Throw e
             -> e = Error ("Invalid rate: " ++ Numeric_toString x))
  /\ (forall e, validateAmount x = Throw e
                -> e = Error ("Invalid amount: " ++ Numeric_toString x))
  /\ (forall z, validateRate x = Return z
                <-> BigInt (Numeric_toString x) = Return z /\ 0 < z)
  /\ (forall z, validateAmount x = Return z
                <-> BigInt (Numeric_toString x) = Return z /\ 0 <= z).
Proof.
  unfold validateRate, isValidRate, validateAmount, isValidAmount.
  destruct (BigInt (Numeric_toString x)) as [b|err]; cbn [negb bindO].
  - destruct (Z.ltb_spec 0 b), (Z.leb_spec 0 b), (Z.leb_spec b 0), (Z.ltb_spec b 0);
      try lia; cbn [negb bindO];
      repeat match goal with |- _ /\ _ => split end;
      try (intros e [= <-]; reflexivity); try discriminate;
      intros z; (split; [try discriminate; intros [= <-]; auto; split; auto; lia
                        | intros ([= <-] & ?); try lia; reflexivity]).
  - repeat match goal with |- _ /\ _ => split end;
      try (intros e [= <-]; reflexivity);
      intros z; (split; [discriminate|now intros ([=] & _)]).
Qed.

(** X11.  Normalization has a fixed point at once: whatever
    [validateSuiAddress] returns is [0x] and exactly 64 hexadecimal digits, is
    accepted by the client's [isObjectIdString], is returned unchanged when
    validated again, and is also what [validateObjectId] and
    [normalizeAddress] return on the same input. *)
Theorem validateSuiAddress_normal_form (s n : string) :
  validateSuiAddress s = Return n ->
  ObjectIdShape n
  /\ isObjectIdString n = true
  /\ validateSuiAddress n = Return n
  /\ validateObjectId s = Return n
  /\ normalizeAddress s = Return n.
Proof.
  intros Hn. unfold validateSuiAddress in Hn.
  destruct (isValidSuiAddress s) eqn:Hv; [|discriminate].
  cbn [negb] in Hn. injection Hn as <-.
  apply isValidSuiAddress_shape in Hv as Hs.
  destruct Hs as (h & -> & Hlen & Hhex).
  change (JsString.slice 2 ("0x" ++ h)) with h.
  unfold JsString.padStart.
  set (padded := JsString.repeat "0" (64 - String.length h) ++ h).
  assert (String.length padded = 64%nat) as Hplen
    by (subst padded; rewrite length_append, length_repeat; lia).
  assert (HexDigits padded) as Hphex by (now apply HexDigits_padded).
  assert (ObjectIdShape ("0x" ++ padded)) as Hshape by (exists padded; auto).
  split; [exact Hshape|]. split; [now apply isObjectIdString_shape|].
  split; [|split].
  - assert (isValidSuiAddress ("0x" ++ padded) = true) as Hv'
      by (apply isValidSuiAddress_shape; exists padded; repeat split; auto; lia).
    pose proof (validateSuiAddress_0x padded Hv') as E. rewrite Hplen in E. exact E.
  - unfold validateObjectId, isValidObjectId. rewrite Hv. cbn [negb].
    now apply validateSuiAddress_0x.
  - unfold normalizeAddress. rewrite startsWith_0x_intro. reflexivity.
Qed.

Lemma validateSuiAddress_normal_form_witness :
  ObjectIdShape "0x0000000000000000000000000000000000000000000000000000000000000001"
  /\ isObjectIdString
       "0x0000000000000000000000000000000000000000000000000000000000000001" = true
  /\ validateSuiAddress
       "0x0000000000000000000000000000000000000000000000000000000000000001"
     = Return "0x0000000000000000000000000000000000000000000000000000000000000001"
  /\ validateObjectId "0x1"
     = Return "0x0000000000000000000000000000000000000000000000000000000000000001"
  /\ normalizeAddress "0x1"
     = Return "0x0000000000000000000000000000000000000000000000000000000000000001".
Proof.
  apply (validateSuiAddress_normal_form "0x1"). reflexivity.
Defined.

(** X12.  [isValidTxDigest] accepts exactly the strings of 43 or 44
    characters of the base-58 alphabet, which has no [0], [O], [I] or [l]. *)
Theorem isValidTxDigest_shape (digest : string) :
  (isValidTxDigest digest = true
   <-> (String.length digest = 43%nat \/ String.length digest = 44%nat)
       /\ forall c, In c (list_ascii_of_string digest)
                    -> In c (list_ascii_of_string base58))
  /\ (forall c, In c (list_ascii_of_string "0OIl")
                -> ~ In c (list_ascii_of_string base58)).
Proof.
  split.
  - unfold isValidTxDigest.
    assert (JsString.all isDigestChar digest = true
            <-> forall c, In c (list_ascii_of_string digest)
                          -> In c (list_ascii_of_string base58)) as Hall.
    { rewrite all_spec. split; intros Hc c Hin; apply isDigestChar_spec; auto. }
    destruct digest as [|c0 rest].
    + cbn. split; [discriminate|]. intros [[H|H] _]; discriminate H.
    + cbn [JsString.isEmpty]. rewrite !andb_true_iff, Hall, !Nat.leb_le.
      split; intros [Hl Hc]; (split; [lia|exact Hc]).
  - intros c Hc Hb. apply isDigestChar_spec in Hb.
    destruct Hc as [<-|[<-|[<-|[<-|[]]]]]; discriminate Hb.
Qed.

(** X13.  [isNonEmptyString] holds of a string exactly when one of its
    characters is not white space; an empty string and a string of blanks
    are both refused by [validateNonEmptyString], and what is accepted is
    returned as it is, blanks included. *)
Theorem isNonEmptyString_spec (value fieldName : string) :
  (isNonEmptyString value = true
   <-> exists c, In c (list_ascii_of_string value)
                 /\ JsBigInt.isStrWhiteSpaceChar c = false)
  /\ (isNonEmptyString value = true -> validateNonEmptyString value fieldName = Return value)
  /\ (isNonEmptyString value = false ->
      validateNonEmptyString value fieldName
      = Throw (Error (fieldName ++ " must be a non-empty string"))).
Proof.
  split; [|split].
  - unfold isNonEmptyString, trim.
    destruct (trimStart_cases value) as [[E Hall]|(c & rest & E & Hc & Hin)]; rewrite E.
    + cbn. split; [discriminate|]. intros (c & Hin & Hc). rewrite (Hall c Hin) in Hc.
      discriminate.
    + destruct (trimEnd_keeps_head c rest Hc) as [t ->]. cbn.
      split; [intros _; eauto|reflexivity].
  - intros Hv. unfold validateNonEmptyString. now rewrite Hv.
  - intros Hv. unfold validateNonEmptyString. now rewrite Hv.
Qed.

(** X14.  [normalizeAddress] fails on the empty string only; on every other
    string it returns [0x] and at least 64 characters, and normalizing its
    result again changes nothing.  It makes no check of the characters. *)
Theorem normalizeAddress_idempotent (address : string) :
  (normalizeAddress address = Throw (Error "Address cannot be empty") <-> address = "")
  /\ (address <> "" ->
      exists padded,
        normalizeAddress address = Return ("0x" ++ padded)
        /\ (64 <= String.length padded)%nat
        /\ normalizeAddress ("0x" ++ padded) = Return ("0x" ++ padded)).
Proof.
  split.
  - unfold normalizeAddress. destruct address; cbn; split; congruence.
  - intros Hne. unfold normalizeAddress.
    destruct address as [|c rest]; [congruence|].
    cbn [JsString.isEmpty].
    set (cleaned := if JsString.startsWith (String c rest) "0x"
                    then JsString.slice 2 (String c rest) else String c rest).
    exists (JsString.padStart 64 "0" cleaned).
    assert (64 <= String.length (JsString.padStart 64 "0" cleaned))%nat as Hlen
      by (unfold JsString.padStart; rewrite length_append, length_repeat; lia).
    split; [reflexivity|]. split; [exact Hlen|].
    rewrite startsWith_0x_intro.
    change (JsString.slice 2 ("0x" ++ JsString.padStart 64 "0" cleaned))
      with (JsString.padStart 64 "0" cleaned).
    change (JsString.isEmpty ("0x" ++ JsString.padStart 64 "0" cleaned)) with false.
    cbv iota. unfold JsString.padStart at 1.
    replace (64 - String.length (JsString.padStart 64 "0" cleaned))%nat with 0%nat by lia.
    reflexivity.
Qed.

Lemma normalizeAddress_idempotent_witness :
  exists padded,
    normalizeAddress "zz" = Return ("0x" ++ padded)
    /\ (64 <= String.length padded)%nat
    /\ normalizeAddress ("0x" ++ padded) = Return ("0x" ++ padded).
Proof.
  apply (proj2 (normalizeAddress_idempotent "zz")). discriminate.
Defined.

(** X15.  [formatCoinType] and [isValidCoinType] on a string made of [0x]
    and hexadecimal digits, [::], a module name, [::] and a type name:
    [formatCoinType] returns it unchanged whatever the number of digits,
    while [isValidCoinType] accepts it only with at most 64 digits.  So every
    coin type that the validator accepts passes [formatCoinType] unchanged,
    and not the other way round. *)
Theorem formatCoinType_is_wider (h module struct : string) :
  h <> "" -> HexDigits h -> IdentifierShape module -> IdentifierShape struct ->
  let s := "0x" ++ h ++ "::" ++ module ++ "::" ++ struct in
  formatCoinType s = Return s
  /\ (isValidCoinType s = true <-> (String.length h <= 64)%nat).
Proof.
  intros Hne Hh Hm Ht s.
  assert (noColon ("0x" ++ h)) as Hna.
  { intros c [<-|[<-|Hc]]; try discriminate. now apply (HexDigits_noColon h Hh). }
  pose proof (IdentifierShape_noColon _ Hm) as Hnm.
  pose proof (IdentifierShape_noColon _ Ht) as Hnt.
  assert (s = ("0x" ++ h) ++ "::" ++ module ++ "::" ++ struct) as Hs by reflexivity.
  assert (JsString.split_colons s = ["0x" ++ h; module; struct]) as Hsplit
    by (rewrite Hs; now apply split_three).
  apply test_identifier_shape in Hm as Hm', Ht as Ht'.
  apply all_isHexDigit in Hh as Hh'.
  split.
  - unfold formatCoinType.
    assert (trim s = s) as ->.
    { unfold trim. change (JsBigInt.trimStart s) with s.
      rewrite Hs, <- !append_assoc.
      apply trimEnd_append.
      - destruct Ht as (c & rest & -> & _). discriminate.
      - apply trimEnd_nonspace. intros c Hc.
        apply test_identifier_shape in Ht.
        destruct struct as [|c0 rest]; [destruct Hc|].
        cbn [JsString.test_identifier] in Ht'. apply andb_prop in Ht' as [Hc0 Hrest].
        assert (JsString.isIdentPart c = true) as Hp.
        { destruct Hc as [<-|Hc]; [unfold JsString.isIdentPart; now rewrite Hc0|].
          now apply (proj1 (all_spec _ _) Hrest). }
        destruct c as [[|] [|] [|] [|] [|] [|] [|] [|]];
          try reflexivity; discriminate Hp. }
    rewrite Hs at 1. rewrite append_assoc, startsWith_0x_intro. cbn [negb].
    rewrite Hsplit.
    change (test_0x_hex_plus ("0x" ++ h)) with (JsString.test_hex_plus h).
    unfold JsString.test_hex_plus. rewrite Hh', Hm', Ht'.
    destruct h; [congruence|reflexivity].
  - unfold isValidCoinType. change (JsString.isEmpty s) with false. cbv iota.
    rewrite Hsplit, isValidSuiAddress_0x, Hh', Hm', Ht'.
    destruct h as [|c0 h0]; [congruence|].
    cbn [JsString.isEmpty negb andb].
    destruct (Nat.leb_spec (String.length (String c0 h0)) 64); split; auto; try lia.
    discriminate.
Qed.

Lemma formatCoinType_is_wider_witness :
  formatCoinType ("0x" ++ "2" ++ "::" ++ "sui" ++ "::" ++ "SUI")
  = Return ("0x" ++ "2" ++ "::" ++ "sui" ++ "::" ++ "SUI")
  /\ (isValidCoinType ("0x" ++ "2" ++ "::" ++ "sui" ++ "::" ++ "SUI") = true
      <-> (String.length "2" <= 64)%nat).
Proof.
  apply (formatCoinType_is_wider "2" "sui" "SUI").
  - discriminate.
  - intros c [<-|[]]. simpl. tauto.
  - apply test_identifier_shape. reflexivity.
  - apply test_identifier_shape. reflexivity.
Defined.

(** ** The builders and the client as a whole *)

Ltac frame :=
  cbn [fst];
  first
    [ exists (@nil Command); split; [now rewrite app_nil_r | cbn; lia]
    | eexists; split; [rewrite <- ?app_assoc; reflexivity | cbn; lia] ].

Section Frame.

Context `{Host} `{InputTypeQuery}.

Lemma validateAmount_Return amount z :
  validateAmount amount = Return z
  <-> BigInt (Numeric_toString amount) = Return z /\ 0 <= z.
Proof.
  unfold validateAmount, isValidAmount.
  destruct (BigInt (Numeric_toString amount)) as [b|e]; cbn.
  - destruct (Z.leb_spec 0 b); cbn.
    + destruct (Z.ltb_spec b 0); [lia|].
      split; [intros [= <-]; auto|intros [[= <-] _]; auto].
    + split; [discriminate|intros [[= <-] ?]; lia].
  - split; [discriminate|intros [[=] _]].
Qed.

Lemma pure_u64_bigint z :
  pure_u64 (Numeric_toString (NumBigInt z))
  = if (z <? 0) || (MAX_U64 <? z) then Throw TypeError else Return (Pure (U64 z)).
Proof. apply pure_u64_of, BigInt_toString. Qed.

Lemma buildCreateVaultTx_frame packageId params :
  appendsAtMost 3 (buildCreateVaultTx packageId params).
Proof.
  intros tx. rewrite buildCreateVaultTx_eq. cbv zeta.
  unfold auxiliaryCalls.
  destruct (encodeCreateVaultArguments _ _), (truthy _); frame.
Qed.

End Frame.

(** X16.  The builders only ever append.  Whatever its parameters and
    whether it returns or throws, each builder leaves the calls already in
    the transaction as they are and where they are; after them come at most
    three calls for a create-vault build and at most one for each of the
    others. *)
Theorem builders_append_only (packageId : string) :
  (forall params, appendsAtMost 3 (buildCreateVaultTx packageId params))
  /\ (forall params, appendsAtMost 1 (buildMintTx packageId params))
  /\ (forall params, appendsAtMost 1 (buildRedeemTx packageId params))
  /\ (forall params, appendsAtMost 1 (buildDepositTx packageId params))
  /\ (forall params, appendsAtMost 1 (buildWithdrawTx packageId params))
  /\ (forall params, appendsAtMost 1 (buildSetRateTx packageId params)).
Proof.
  split; [intros params; apply buildCreateVaultTx_frame|].
  repeat match goal with |- _ /\ _ => split end; intros params tx.
  - cbv [buildMintTx bindB ret moveCall add]. frame.
  - cbv [buildRedeemTx bindB ret moveCall add]. frame.
  - cbv [buildDepositTx bindB ret moveCall add]. frame.
  - cbv [buildWithdrawTx bindB ret lift moveCall add]. destruct (pure_u64 _); frame.
  - cbv [buildSetRateTx bindB ret lift moveCall add]. destruct (pure_u64 _); frame.
Qed.

(** X17.  The client's build methods only ever append, whether they return
    or throw (reject): at most three calls for [createVault], two for the
    transfer variants and one for the others. *)
Theorem client_appends_only `{Host} `{InputTypeQuery} (packageId : string) :
  (forall config treasury, appendsAtMost 3 (createVault packageId config treasury))
  /\ (forall params, appendsAtMost 1 (mint packageId params))
  /\ (forall params recipient, appendsAtMost 2 (mint_and_transfer packageId params recipient))
  /\ (forall params, appendsAtMost 1 (redeem packageId params))
  /\ (forall params recipient,
        appendsAtMost 2 (redeem_and_transfer packageId params recipient))
  /\ (forall params, appendsAtMost 1 (deposit packageId params))
  /\ (forall params, appendsAtMost 1 (withdraw packageId params))
  /\ (forall params recipient,
        appendsAtMost 2 (withdraw_and_transfer packageId params recipient))
  /\ (forall params, appendsAtMost 1 (updateRate packageId params)).
Proof.
  repeat match goal with |- _ /\ _ => split end.
  - intros config treasury tx. unfold createVault, bindB, lift.
    destruct (validateVaultConfig config); [|frame].
    apply buildCreateVaultTx_frame.
  - intros params tx. cbv [mint bindB lift ret buildMintTx moveCall add].
    destruct (validateCoinType _); [|frame].
    destruct (validateCoinType _); [|frame].
    destruct (MintParams.inputCoin params) as [s|arg];
      [destruct (negb (isObjectIdString s))|]; frame.
  - intros params recipient tx.
    cbv [mint_and_transfer bindB lift ret buildMintTx moveCall transferObjects add].
    destruct (validateCoinType _); [|frame].
    destruct (validateCoinType _); [|frame].
    destruct (MintParams.inputCoin params) as [s|arg];
      [destruct (negb (isObjectIdString s))|]; try frame;
      destruct (pure_address recipient); frame.
  - intros params tx. cbv [redeem bindB lift ret buildRedeemTx moveCall add].
    destruct (validateCoinType _); [|frame].
    destruct (validateCoinType _); frame.
  - intros params recipient tx.
    cbv [redeem_and_transfer bindB lift ret buildRedeemTx moveCall transferObjects add].
    destruct (validateCoinType _); [|frame].
    destruct (validateCoinType _); [|frame].
    destruct (RedeemParams.outputCoin params) as [s|arg];
      [destruct (negb (isObjectIdString s))|]; try frame;
      destruct (pure_address recipient); frame.
  - intros params tx. cbv [deposit bindB lift ret buildDepositTx moveCall add].
    destruct (validateCoinType _); [|frame].
    destruct (DepositParams.inputCoin params) as [s|arg];
      [destruct (negb (isObjectIdString s))|]; try frame;
      destruct (inferOutputTypeFromVault _); frame.
  - intros params tx. cbv [withdraw bindB lift ret buildWithdrawTx moveCall add].
    destruct (validateAmount _); [|frame].
    destruct (validateCoinType _); [|frame].
    destruct (inferOutputTypeFromVault _); [|frame].
    destruct (pure_u64 _); frame.
  - intros params recipient tx.
    cbv [withdraw_and_transfer bindB lift ret buildWithdrawTx moveCall transferObjects add].
    destruct (validateAmount _); [|frame].
    destruct (validateCoinType _); [|frame].
    destruct (inferOutputTypeFromVault _); [|frame].
    destruct (pure_u64 _); [|frame].
    destruct (pure_address recipient); frame.
  - intros params tx. cbv [updateRate bindB lift ret buildSetRateTx moveCall add].
    destruct (validateRate _); [|frame].
    destruct (inferInputTypeFromVault _); [|frame].
    destruct (inferOutputTypeFromVault _); [|frame].
    destruct (pure_u64 _); frame.
Qed.

(** X18.  [mint_and_transfer] is [mint] followed by a transfer.  When [mint]
    throws, [mint_and_transfer] throws the same error with nothing appended.
    When [mint] returns, it has appended one call and returned the handle of
    its first result; [mint_and_transfer] then appends, after that call, one
    transfer of that handle to the recipient if the address encoder accepts
    the recipient, and otherwise throws with the mint call left in the
    transaction. *)
Theorem mint_then_transfer `{Host} (packageId : string) (params : MintParams.t)
  (recipient : string) (tx : Transaction) :
  (forall e, mint packageId params tx = (tx, Throw e) ->
             mint_and_transfer packageId params recipient tx = (tx, Throw e))
  /\ (forall tx' minted, mint packageId params tx = (tx', Return minted) ->
      (exists call, tx' = (tx ++ [call])%list
                    /\ minted = NestedResult (List.length tx) 0
                    /\ nth_error tx' (List.length tx) = Some call)
      /\ mint_and_transfer packageId params recipient tx =
           if sui_address_encodes recipient
           then ((tx' ++ [TransferObjects [minted] (Pure (PureAddress recipient))])%list,
                 Return tt)
           else (tx', Throw (Error ("Invalid Sui address " ++ recipient)))).
Proof.
  assert (forall (call : Command),
             nth_error (tx ++ [call])%list (List.length tx) = Some call) as Hnth.
  { intros call. rewrite nth_error_app2 by lia. now rewrite Nat.sub_diag. }
  cbv [mint mint_and_transfer bindB lift ret buildMintTx moveCall
       transferObjects add pure_address first].
  destruct (validateCoinType (MintParams.inputCoinType params)) as [?|e1];
    [|split; [intros e [= <-]; reflexivity|intros; discriminate]].
  destruct (validateCoinType (MintParams.outputCoinType params)) as [?|e2];
    [|split; [intros e [= <-]; reflexivity|intros; discriminate]].
  destruct (MintParams.inputCoin params) as [s|arg];
    [destruct (negb (isObjectIdString s))|];
    (split;
     [intros e E; try discriminate; injection E as <-; reflexivity
     |intros tx' minted E;
      first
        [discriminate
        |injection E as <- <-;
         split;
         [eexists; repeat split; apply Hnth
         |destruct (sui_address_encodes recipient); reflexivity]]]).
Qed.

(** X19.  [withdraw] with an amount that reads as the integer [z >= 0] and
    a well-formed coin type.  If the chain query for the output type fails,
    the failure is passed on and nothing is appended.  Otherwise an amount
    above [2^64 - 1], which [validateAmount] lets through, is refused by the
    u64 encoder with a TypeError and nothing appended; an amount within it
    gives one withdraw call on the owner capability, the vault and the
    amount as a u64, typed by the input type and the queried output type. *)
Theorem withdraw_outcomes `{Host} (packageId : string) (params : WithdrawParams.t)
  (tx : Transaction) (z : Z) :
  validateAmount (WithdrawParams.amount params) = Return z ->
  isValidCoinType (WithdrawParams.inputCoinType params) = true ->
  withdraw packageId params tx =
    match inferOutputTypeFromVault (WithdrawParams.vaultId params) with
    | Throw e => (tx, Throw e)
    | Return outputCoinType =>
        if MAX_U64 <? z then (tx, Throw TypeError)
        else ((tx ++ [MoveCall (target_of packageId VAULT_FUNCTIONS.WITHDRAW)
                        [WithdrawParams.inputCoinType params; outputCoinType]
                        [objectOrHandle (WithdrawParams.ownerCap params);
                         Object (WithdrawParams.vaultId params);
                         Pure (U64 z)]])%list,
              Return (NestedResult (List.length tx) 0))
    end.
Proof.
  intros Hamount Hcoin.
  apply validateAmount_Return in Hamount as Hz. destruct Hz as [_ Hz].
  unfold withdraw, bindB, lift. rewrite Hamount, (validateCoinType_valid _ Hcoin).
  destruct (inferOutputTypeFromVault _) as [T|e]; [|reflexivity].
  unfold buildWithdrawTx, bindB, lift, ret, moveCall, add, first, tx_object.
  cbn [WithdrawTxParams.amount WithdrawTxParams.ownerCap WithdrawTxParams.vaultId
       WithdrawTxParams.inputCoinType WithdrawTxParams.outputCoinType].
  rewrite pure_u64_bigint.
  destruct (Z.ltb_spec z 0); [lia|]. cbn [orb].
  now destruct (MAX_U64 <? z).
Qed.

Lemma withdraw_outcomes_witness :
  @withdraw sampleHost Sample.packageId MoreSamples.withdrawAboveU64 []
  = ([], Throw TypeError).
Proof.
  exact (@withdraw_outcomes sampleHost Sample.packageId MoreSamples.withdrawAboveU64 []
           18446744073709551616 eq_refl eq_refl).
Defined.

(** X20.  [updateRate] is all-or-nothing.  A rate that [validateRate]
    refuses, or a failing chain query, gives that error with nothing
    appended; a rate that reads as [z > 0] gives, with both queries
    answered, either one set-rate call with the rate as a u64, typed by the
    two queried types, or, for [z] above [2^64 - 1], a TypeError from the
    u64 encoder with nothing appended. *)
Theorem updateRate_outcomes `{Host} `{InputTypeQuery} (packageId : string)
  (params : UpdateRateParams.t) (tx : Transaction) :
  (forall e, validateRate (UpdateRateParams.newRate params) = Throw e ->
             updateRate packageId params tx = (tx, Throw e))
  /\ (forall z, validateRate (UpdateRateParams.newRate params) = Return z ->
      updateRate packageId params tx =
        match inferInputTypeFromVault (UpdateRateParams.vaultId params) with
        | Throw e => (tx, Throw e)
        | Return inputCoinType =>
            match inferOutputTypeFromVault (UpdateRateParams.vaultId params) with
            | Throw e => (tx, Throw e)
            | Return outputCoinType =>
                if MAX_U64 <? z then (tx, Throw TypeError)
                else ((tx ++ [MoveCall (target_of packageId VAULT_FUNCTIONS.SET_RATE)
                                [inputCoinType; outputCoinType]
                                [objectOrHandle (UpdateRateParams.ownerCap params);
                                 Object (UpdateRateParams.vaultId params);
                                 Pure (U64 z)]])%list,
                      Return tt)
            end
        end).
Proof.
  split.
  - intros e He. unfold updateRate, bindB, lift. now rewrite He.
  - intros z Hz. apply validateRate_Return in Hz as Hpos. destruct Hpos as [_ Hpos].
    unfold updateRate, bindB, lift. rewrite Hz.
    destruct (inferInputTypeFromVault _) as [Tin|e]; [|reflexivity].
    destruct (inferOutputTypeFromVault _) as [Tout|e]; [|reflexivity].
    unfold buildSetRateTx, bindB, lift, ret, moveCall, add, tx_object.
    cbn [SetRateTxParams.newRate SetRateTxParams.ownerCap SetRateTxParams.vaultId
         SetRateTxParams.inputCoinType SetRateTxParams.outputCoinType].
    rewrite pure_u64_bigint.
    destruct (Z.ltb_spec z 0); [lia|]. cbn [orb].
    now destruct (MAX_U64 <? z).
Qed.

Lemma updateRate_outcomes_witness :
  @updateRate sampleHost sampleInputTypeQuery Sample.packageId
    MoreSamples.setRateAboveU64 []
  = ([], Throw TypeError).
Proof.
  exact (proj2 (@updateRate_outcomes sampleHost sampleInputTypeQuery Sample.packageId
                  MoreSamples.setRateAboveU64 [])
           18446744073709551616 eq_refl).
Defined.

(** X21.  [deposit] with a well-formed input coin type and an input coin
    that is a resolved handle or an object-id string: when the chain query
    for the output type fails, the failure is passed on with nothing
    appended; otherwise exactly one deposit call is appended, on the owner
    capability, the vault and the coin, typed by the input type and the
    queried output type.  The owner capability is passed on unchecked, a
    string of any shape as an object. *)
Theorem deposit_outcomes `{Host} (packageId : string) (params : DepositParams.t)
  (tx : Transaction) :
  isValidCoinType (DepositParams.inputCoinType params) = true ->
  match DepositParams.inputCoin params with
  | ObjectId s => ObjectIdShape s
  | Resolved _ => True
  end ->
  deposit packageId params tx =
    match inferOutputTypeFromVault (DepositParams.vaultId params) with
    | Throw e => (tx, Throw e)
    | Return outputCoinType =>
        ((tx ++ [MoveCall (target_of packageId VAULT_FUNCTIONS.DEPOSIT)
                   [DepositParams.inputCoinType params; outputCoinType]
                   [objectOrHandle (DepositParams.ownerCap params);
                    Object (DepositParams.vaultId params);
                    objectOrHandle (DepositParams.inputCoin params)]])%list,
         Return tt)
    end.
Proof.
  intros Hcoin Hshape. unfold deposit, bindB, lift.
  rewrite (validateCoinType_valid _ Hcoin).
  destruct (DepositParams.inputCoin params) as [s|arg].
  - apply isObjectIdString_shape in Hshape. rewrite Hshape. cbn [negb].
    destruct (inferOutputTypeFromVault _); reflexivity.
  - destruct (inferOutputTypeFromVault _); reflexivity.
Qed.

Lemma deposit_outcomes_witness :
  @deposit sampleHost Sample.packageId
    (DepositParams.mk (ObjectId "anything") "0x1" (Resolved (NestedResult 0 0))
       "0x2::sui::SUI") []
  = ([MoveCall (target_of Sample.packageId VAULT_FUNCTIONS.DEPOSIT)
        ["0x2::sui::SUI"; "0x2::sui::SUI"]
        [Object "anything"; Object "0x1"; NestedResult 0 0]],
     Return tt).
Proof.
  exact (@deposit_outcomes sampleHost Sample.packageId
           (DepositParams.mk (ObjectId "anything") "0x1" (Resolved (NestedResult 0 0))
              "0x2::sui::SUI") [] eq_refl I).
Defined.

(** X22.  What a create-vault build needs in order to return: the rate must
    read as an integer within [0, 2^64 - 1] and the rate decimals lie within
    [0, 255]; nothing else matters, no symbol, name or description is ever
    refused by its encoder.  When the build throws, the error is a
    SyntaxError (the rate does not read as an integer) or a TypeError. *)
Theorem buildCreateVaultTx_returns_iff (packageId : string)
  (params : CreateVaultParams.t) (tx : Transaction) :
  (snd (buildCreateVaultTx packageId params tx) = Return tt
   <-> exists z, BigInt (Numeric_toString (CreateVaultParams.rate params)) = Return z
                 /\ 0 <= z <= MAX_U64
                 /\ 0 <= CreateVaultParams.rateDecimals params <= 255)
  /\ (forall e, snd (buildCreateVaultTx packageId params tx) = Throw e ->
                e = SyntaxError \/ e = TypeError).
Proof.
  rewrite buildCreateVaultTx_eq. cbv zeta.
  unfold encodeCreateVaultArguments, pure_u64, pure_u8, BigInt.
  rewrite !pure_vector_u8_utf8.
  destruct (JsBigInt.StringToBigInt _) as [z|]; cbn [bindO snd].
  - destruct (Z.ltb_spec z 0); cbn [orb bindO snd].
    { split; [split; [discriminate|intros (z' & [= <-] & ? & _); lia]|].
      intros e [= <-]. now right. }
    destruct (Z.ltb_spec MAX_U64 z); cbn [bindO snd].
    { split; [split; [discriminate|intros (z' & [= <-] & ? & _); lia]|].
      intros e [= <-]. now right. }
    destruct (Z.ltb_spec (CreateVaultParams.rateDecimals params) 0); cbn [orb bindO snd].
    { split; [split; [discriminate|intros (z' & _ & _ & ?); lia]|].
      intros e [= <-]. now right. }
    destruct (Z.ltb_spec 255 (CreateVaultParams.rateDecimals params)); cbn [bindO snd].
    { split; [split; [discriminate|intros (z' & _ & _ & ?); lia]|].
      intros e [= <-]. now right. }
    split; [|discriminate].
    split; [intros _; exists z; repeat split; auto; lia|reflexivity].
  - split; [split; [discriminate|intros (z' & [=] & _)]|].
    intros e [= <-]. now left.
Qed.
